(** * Conditional requests of huma: [Params.PreconditionFailed]

    A shallow embedding of package [conditional] (ETag and modification-time
    preconditions, RFC 7232) and the properties of its evaluation.

    Go strings are byte strings: they are modelled by [string], whose
    characters are the 8-bit [ascii].  The [huma.Context] a handler passes
    in is an interface of another package; it is modelled by the sequence
    of calls the evaluation makes on it. *)

From Stdlib Require Import ZArith List String Ascii Bool Lia Permutation.
Import ListNotations.
Local Open Scope string_scope.

(** ** The parts of Go's standard library the package uses *)

Module strings.

(** [strings.HasPrefix(s, prefix)]. *)
Definition HasPrefix (s prefix : string) : bool := String.prefix prefix s.

(** The slice expression [s[n:]], for [n <= len(s)]. *)
Definition from (n : nat) (s : string) : string :=
  substring n (String.length s - n) s.

(** [trimLeftByte]: drop the leading bytes equal to [c]. *)
Fixpoint trimLeftByte (s : string) (c : ascii) : string :=
  match s with
  | EmptyString => EmptyString
  | String a s' => if Ascii.eqb a c then trimLeftByte s' c else s
  end.

(** [trimRightByte]: drop the trailing bytes equal to [c]. *)
Fixpoint trimRightByte (s : string) (c : ascii) : string :=
  match s with
  | EmptyString => EmptyString
  | String a s' =>
      match trimRightByte s' c with
      | EmptyString => if Ascii.eqb a c then EmptyString else String a EmptyString
      | r => String a r
      end
  end.

(** [strings.Trim(s, cutset)] for a cutset of one ASCII byte, the only
    way the package calls it: Go takes the path
    [trimLeftByte(trimRightByte(s, c), c)]. *)
Definition Trim (s : string) (c : ascii) : string :=
  trimLeftByte (trimRightByte s c) c.

(** [strings.ReplaceAll(s, old, new)] for an [old] of one byte. *)
Fixpoint ReplaceAll (s : string) (old : ascii) (new : string) : string :=
  match s with
  | EmptyString => EmptyString
  | String a s' =>
      if Ascii.eqb a old then new ++ ReplaceAll s' old new
      else String a (ReplaceAll s' old new)
  end.

(** [strings.Split(s, sep)] for a separator of one byte: the pieces between
    the separators, one more than there are separators. *)
Fixpoint Split (s : string) (sep : ascii) : list string :=
  match s with
  | EmptyString => [EmptyString]
  | String a s' =>
      if Ascii.eqb a sep then EmptyString :: Split s' sep
      else match Split s' sep with
           | [] => [String a EmptyString]
           | piece :: pieces => String a piece :: pieces
           end
  end.

(** [strings.Join(elems, sep)]. *)
Fixpoint Join (elems : list string) (sep : string) : string :=
  match elems with
  | [] => EmptyString
  | [e] => e
  | e :: rest => e ++ sep ++ Join rest sep
  end.

(** [strings.Contains(s, substr)]. *)
Fixpoint Contains (s substr : string) : bool :=
  String.prefix substr s
  || match s with
     | EmptyString => false
     | String _ s' => Contains s' substr
     end.

End strings.

Module time.

(** [time.Time] as the instant it denotes: seconds since January 1,
    year 1, 00:00:00 UTC and nanoseconds within the second.  Header values
    are parsed from HTTP dates and carry no monotonic clock reading, so
    [After] compares these two fields. *)
Record Time : Type := mkTime { sec : Z; nsec : Z }.

(** The zero value of [time.Time]. *)
Definition zero : Time := mkTime 0 0.

(** [t.IsZero()]. *)
Definition IsZero (t : Time) : bool := (sec t =? 0)%Z && (nsec t =? 0)%Z.

(** [t.After(u)]: [ts > us || ts == us && t.nsec() > u.nsec()]. *)
Definition After (t u : Time) : bool :=
  (sec t >? sec u)%Z || ((sec t =? sec u)%Z && (nsec t >? nsec u)%Z).

(** The nanosecond field of a [time.Time] is within one second. *)
Definition wf (t : Time) : Prop := (0 <= nsec t < 1000000000)%Z.

(** The instant in nanoseconds, to compare [After] with. *)
Definition instant (t : Time) : Z := (sec t * 1000000000 + nsec t)%Z.

End time.

Module http.
Definition MethodGet := "GET".
Definition MethodHead := "HEAD".
Definition MethodPost := "POST".
Definition MethodPut := "PUT".
Definition MethodPatch := "PATCH".
Definition MethodDelete := "DELETE".
Definition StatusNotModified : Z := 304.
Definition StatusPreconditionFailed : Z := 412.

(** [http.StatusText], on the codes the package uses. *)
Definition StatusText (code : Z) : string :=
  if (code =? 304)%Z then "Not Modified"
  else if (code =? 412)%Z then "Precondition Failed"
  else "".
End http.

(** ** The context: [huma.ErrorDetail] and the calls made on [huma.Context] *)

(** The [Value] of an error detail is an [interface{}]; the evaluation stores
    a string or the list of If-Match values. *)
Inductive DetailValue : Type :=
| VString (s : string)
| VStrings (l : list string).

Record ErrorDetail : Type := mkErrorDetail {
  Message : string;
  Location : string;
  Value : DetailValue
}.

(** One call on the context. *)
Inductive Call : Type :=
| AddError (e : ErrorDetail)
| WriteError (status : Z) (message : string)
| WriteHeader (status : Z).

(** The context, as the calls made on it so far, oldest first. *)
Definition Context : Type := list Call.

(** The error details added to a context. *)
Fixpoint ctx_errors (ctx : Context) : list ErrorDetail :=
  match ctx with
  | [] => []
  | AddError e :: ctx' => e :: ctx_errors ctx'
  | _ :: ctx' => ctx_errors ctx'
  end.

(** The status codes written to the response. *)
Fixpoint ctx_statuses (ctx : Context) : list Z :=
  match ctx with
  | [] => []
  | AddError _ :: ctx' => ctx_statuses ctx'
  | WriteError st _ :: ctx' => st :: ctx_statuses ctx'
  | WriteHeader st :: ctx' => st :: ctx_statuses ctx'
  end.

(** The error responses (status and message, with a body of the collected
    errors) written to the response; [WriteHeader] writes no body. *)
Fixpoint ctx_bodies (ctx : Context) : list (Z * string) :=
  match ctx with
  | [] => []
  | WriteError st msg :: ctx' => (st, msg) :: ctx_bodies ctx'
  | _ :: ctx' => ctx_bodies ctx'
  end.

(** Code that calls the context: a computation from the context before to a
    result and the context after. *)
Definition M (A : Type) : Type := Context -> A * Context.

Definition ret {A : Type} (a : A) : M A := fun ctx => (a, ctx).

Definition bind {A B : Type} (m : M A) (k : A -> M B) : M B :=
  fun ctx => let (a, ctx') := m ctx in k a ctx'.

Definition call (c : Call) : M unit := fun ctx => (tt, (ctx ++ [c])%list).

(** [if b { m }]. *)
Definition when (b : bool) (m : M unit) : M unit := if b then m else ret tt.

Declare Scope ctx_scope.
Delimit Scope ctx_scope with ctx.
Notation "x <- m ;; k" := (bind m (fun x => k))
  (at level 61, m at next level, right associativity) : ctx_scope.
Notation "m ;; k" := (bind m (fun _ => k))
  (at level 61, right associativity) : ctx_scope.
Local Open Scope ctx_scope.

(** ** Package conditional *)

Definition dquote : ascii := ascii_of_nat 34.

(** [trimETag] removes the quotes and [W/] prefix of an incoming ETag. *)
Definition trimETag (value : string) : string :=
  let value :=
    if strings.HasPrefix value "W/" && (2 <? String.length value)%nat
    then strings.from 2 value
    else value in
  strings.Trim value dquote.

Record Params : Type := mkParams {
  IfMatch : list string;
  IfNoneMatch : list string;
  IfModifiedSince : time.Time;
  IfUnmodifiedSince : time.Time;
  isWrite : bool
}.

(** [Params.Resolve]: only the request's method is read. *)
Definition Resolve (p : Params) (method : string) : Params :=
  if String.eqb method http.MethodPost || String.eqb method http.MethodPut
     || String.eqb method http.MethodPatch || String.eqb method http.MethodDelete
  then mkParams (IfMatch p) (IfNoneMatch p) (IfModifiedSince p)
         (IfUnmodifiedSince p) true
  else p.

(** [Params.HasConditionalParams]. *)
Definition HasConditionalParams (p : Params) : bool :=
  (0 <? List.length (IfMatch p))%nat || (0 <? List.length (IfNoneMatch p))%nat
  || negb (time.IsZero (IfModifiedSince p))
  || negb (time.IsZero (IfUnmodifiedSince p)).

Section Evaluation.

(** [t.Format(http.TimeFormat)]: the standard library's rendering of a time
    as an HTTP date, used in messages only. *)
Variable FormatHTTP : time.Time -> string.

(** The loop over [p.IfNoneMatch]; [failed] is the variable of that name. *)
Fixpoint ifNoneMatchLoop (p : Params) (etag foundMsg : string)
    (l : list string) (failed : bool) : M bool :=
  match l with
  | [] => ret failed
  | match_ :: rest =>
      let trimmed := trimETag match_ in
      if String.eqb trimmed etag
         || (String.eqb trimmed "*" && negb (String.eqb etag ""))
      then
        when (isWrite p)
          (call (AddError {|
             Message := "If-None-Match: " ++ match_
                        ++ " precondition failed, " ++ foundMsg;
             Location := "request.headers.If-None-Match";
             Value := VString match_ |})) ;;
        ifNoneMatchLoop p etag foundMsg rest true
      else ifNoneMatchLoop p etag foundMsg rest failed
  end.

(** The loop over [p.IfMatch], which stops at the first match; the result
    is the variable [found]. *)
Fixpoint ifMatchFound (etag : string) (l : list string) : bool :=
  match l with
  | [] => false
  | match_ :: rest =>
      if String.eqb (trimETag match_) etag then true
      else ifMatchFound etag rest
  end.

(** The If-Match block. *)
Definition checkIfMatch (p : Params) (etag foundMsg : string)
    (failed : bool) : M bool :=
  if (0 <? List.length (IfMatch p))%nat then
    let found := ifMatchFound etag (IfMatch p) in
    if negb found then
      when (isWrite p)
        (call (AddError {|
           Message := "If-Match precondition failed, " ++ foundMsg;
           Location := "request.headers.If-Match";
           Value := VStrings (IfMatch p) |})) ;;
      ret true
    else ret failed
  else ret failed.

(** The If-Modified-Since block. *)
Definition checkIfModifiedSince (p : Params) (modified : time.Time)
    (failed : bool) : M bool :=
  if negb (time.IsZero (IfModifiedSince p))
     && negb (time.After modified (IfModifiedSince p))
  then
    when (isWrite p)
      (call (AddError {|
         Message := "If-Modified-Since: " ++ FormatHTTP (IfModifiedSince p)
                    ++ " precondition failed, resource was modified at "
                    ++ FormatHTTP modified;
         Location := "request.headers.If-Modified-Since";
         Value := VString (FormatHTTP (IfModifiedSince p)) |})) ;;
    ret true
  else ret failed.

(** The If-Unmodified-Since block. *)
Definition checkIfUnmodifiedSince (p : Params) (modified : time.Time)
    (failed : bool) : M bool :=
  if negb (time.IsZero (IfUnmodifiedSince p))
     && time.After modified (IfUnmodifiedSince p)
  then
    when (isWrite p)
      (call (AddError {|
         Message := "If-Unmodified-Since: "
                    ++ FormatHTTP (IfUnmodifiedSince p)
                    ++ " precondition failed, resource was modified at "
                    ++ FormatHTTP modified;
         Location := "request.headers.If-Unmodified-Since";
         Value := VString (FormatHTTP (IfUnmodifiedSince p)) |})) ;;
    ret true
  else ret failed.

(** The final block: the response is written when a check failed. *)
Definition respond (p : Params) (failed : bool) : M bool :=
  if failed then
    (if isWrite p
     then call (WriteError http.StatusPreconditionFailed
                  (http.StatusText http.StatusPreconditionFailed))
     else call (WriteHeader http.StatusNotModified)) ;;
    ret true
  else ret false.

(** [Params.PreconditionFailed(ctx, etag, modified)]. *)
Definition PreconditionFailed (p : Params) (etag : string)
    (modified : time.Time) : M bool :=
  let failed := false in
  let foundMsg :=
    if negb (String.eqb etag "") then "found resource with ETag " ++ etag
    else "found no existing resource" in
  failed <- ifNoneMatchLoop p etag foundMsg (IfNoneMatch p) failed ;;
  failed <- checkIfMatch p etag foundMsg failed ;;
  failed <- checkIfModifiedSince p modified failed ;;
  failed <- checkIfUnmodifiedSince p modified failed ;;
  respond p failed.

(** The outcome of an evaluation as the specification names it. *)
Inductive Outcome : Type :=
| Proceed
| Blocked (errors : list ErrorDetail).

(** The outcome read off a run: the returned flag, and the error details
    the run has added to the context. *)
Definition outcome (r : bool * Context) : Outcome :=
  if fst r then Blocked (ctx_errors (snd r)) else Proceed.

(** An evaluation on a fresh context. *)
Definition evaluate (p : Params) (etag : string) (modified : time.Time)
    : Outcome :=
  outcome (PreconditionFailed p etag modified []).

End Evaluation.

(** ** Concrete values for the runs below *)

(** A tag in double quotes, as it is sent in a header. *)
Definition quoted (s : string) : string :=
  String dquote (s ++ String dquote EmptyString).

(** A stand-in for the rendering of times in the concrete runs: it tells
    the zero time from the others. *)
Definition sampleFormat (t : time.Time) : string :=
  if time.IsZero t then "zero time" else "some time".

(** ** The conditions of the four checks, as the code tests them *)

(** The test of one If-None-Match value. *)
Definition noneMatchHit (etag match_ : string) : bool :=
  String.eqb (trimETag match_) etag
  || (String.eqb (trimETag match_) "*" && negb (String.eqb etag "")).

Definition noneMatchFails (p : Params) (etag : string) : bool :=
  existsb (noneMatchHit etag) (IfNoneMatch p).

Definition matchFails (p : Params) (etag : string) : bool :=
  (0 <? List.length (IfMatch p))%nat && negb (ifMatchFound etag (IfMatch p)).

Definition modifiedSinceFails (p : Params) (modified : time.Time) : bool :=
  negb (time.IsZero (IfModifiedSince p))
  && negb (time.After modified (IfModifiedSince p)).

Definition unmodifiedSinceFails (p : Params) (modified : time.Time) : bool :=
  negb (time.IsZero (IfUnmodifiedSince p))
  && time.After modified (IfUnmodifiedSince p).

Definition anyFails (p : Params) (etag : string) (modified : time.Time)
    : bool :=
  noneMatchFails p etag || matchFails p etag
  || modifiedSinceFails p modified || unmodifiedSinceFails p modified.

(** The message part that describes the resource found. *)
Definition foundMsgOf (etag : string) : string :=
  if negb (String.eqb etag "") then "found resource with ETag " ++ etag
  else "found no existing resource".

(** The error details of the four blocks. *)
Definition noneMatchDetail (foundMsg match_ : string) : ErrorDetail :=
  {| Message := "If-None-Match: " ++ match_
                ++ " precondition failed, " ++ foundMsg;
     Location := "request.headers.If-None-Match";
     Value := VString match_ |}.

Definition matchDetail (p : Params) (foundMsg : string) : ErrorDetail :=
  {| Message := "If-Match precondition failed, " ++ foundMsg;
     Location := "request.headers.If-Match";
     Value := VStrings (IfMatch p) |}.

Definition modifiedSinceDetail (fmt : time.Time -> string) (p : Params)
    (modified : time.Time) : ErrorDetail :=
  {| Message := "If-Modified-Since: " ++ fmt (IfModifiedSince p)
                ++ " precondition failed, resource was modified at "
                ++ fmt modified;
     Location := "request.headers.If-Modified-Since";
     Value := VString (fmt (IfModifiedSince p)) |}.

Definition unmodifiedSinceDetail (fmt : time.Time -> string) (p : Params)
    (modified : time.Time) : ErrorDetail :=
  {| Message := "If-Unmodified-Since: " ++ fmt (IfUnmodifiedSince p)
                ++ " precondition failed, resource was modified at "
                ++ fmt modified;
     Location := "request.headers.If-Unmodified-Since";
     Value := VString (fmt (IfUnmodifiedSince p)) |}.

(** The error details of a write, in the order the blocks add them. *)
Definition writeErrors (fmt : time.Time -> string) (p : Params)
    (etag : string) (modified : time.Time) : list ErrorDetail :=
  (List.map (noneMatchDetail (foundMsgOf etag))
     (List.filter (noneMatchHit etag) (IfNoneMatch p))
   ++ (if matchFails p etag then [matchDetail p (foundMsgOf etag)] else [])
   ++ (if modifiedSinceFails p modified
       then [modifiedSinceDetail fmt p modified] else [])
   ++ (if unmodifiedSinceFails p modified
       then [unmodifiedSinceDetail fmt p modified] else []))%list.

(** The response written when a check failed. *)
Definition response (p : Params) : Call :=
  if isWrite p then WriteError 412 "Precondition Failed" else WriteHeader 304.

(** All the calls of one evaluation. *)
Definition calls (fmt : time.Time -> string) (p : Params) (etag : string)
    (modified : time.Time) : list Call :=
  ((if isWrite p then List.map AddError (writeErrors fmt p etag modified)
    else [])
   ++ (if anyFails p etag modified then [response p] else []))%list.

(** The first and the last byte of a string. *)
Definition first_byte (s : string) : option ascii :=
  match s with
  | EmptyString => None
  | String a _ => Some a
  end.

Fixpoint last_byte (s : string) : option ascii :=
  match s with
  | EmptyString => None
  | String a EmptyString => Some a
  | String _ s' => last_byte s'
  end.

(** A tag with no quote character at either end. *)
Definition bare (s : string) : Prop :=
  first_byte s <> Some dquote /\ last_byte s <> Some dquote.

(** A string made of the byte [c] only. *)
Fixpoint allByte (c : ascii) (s : string) : bool :=
  match s with
  | EmptyString => true
  | String a s' => Ascii.eqb a c && allByte c s'
  end.

(** A string with no byte [c]. *)
Fixpoint noByte (c : ascii) (s : string) : bool :=
  match s with
  | EmptyString => true
  | String a s' => negb (Ascii.eqb a c) && noByte c s'
  end.

(** ** Package humaecho: the route path of [echoAdapter.Handle] *)

Module humaecho.

(** The path [Handle] registers with the Echo router for an operation's
    path: each [{param}] becomes [:param]. *)
Definition Handle_path (path : string) : string :=
  let path := strings.ReplaceAll path "{" ":" in
  let path := strings.ReplaceAll path "}" "" in
  path.

End humaecho.

(** ** Package humachi: [chiAdapter] and its [Group] *)

Module humachi.

Record Operation : Type := mkOperation { Method : string; Path : string }.

(** Handlers and middlewares are functions: they are told apart by a
    number. *)
Definition Handler : Type := nat.
Definition Middleware : Type := nat.

Record params : Type := mkparams { op : Operation; handler : Handler }.

(** The calls made on the chi router: [MethodFunc] on the router itself,
    or [Group] with a function that calls [Use] with the middlewares and
    then [MethodFunc] for each registration. *)
Inductive RouterCall : Type :=
| MethodFunc (method path : string) (h : Handler)
| RouterGroup (middlewares : list Middleware)
    (registered : list (string * string * Handler)).

(** The two values the field [route] takes: [defaultHandler], and the
    function [Group] installs, which collects into [handlers]. *)
Inductive Route : Type :=
| defaultHandler
| collect.

(** The adapter; [router] is the calls made on its router so far, and
    [handlers] is [None] for a nil slice. *)
Record chiAdapter : Type := mkchiAdapter {
  router : list RouterCall;
  route : Route;
  handlers : option (list params)
}.

(** [NewAdapter] and [New]: the route is [defaultHandler], the slice nil. *)
Definition NewAdapter (r : list RouterCall) : chiAdapter :=
  mkchiAdapter r defaultHandler None.

(** [Handle]: [a.route(a, op, handler)]. *)
Definition Handle (a : chiAdapter) (o : Operation) (h : Handler)
    : chiAdapter :=
  match route a with
  | defaultHandler =>
      mkchiAdapter (router a ++ [MethodFunc (Method o) (Path o) h])%list
        (route a) (handlers a)
  | collect =>
      let hs := match handlers a with
                | None => []
                | Some hs => hs
                end in
      mkchiAdapter (router a) (route a) (Some (hs ++ [mkparams o h])%list)
  end.

(** What the function passed to [Group] does with the adapter: a sequence
    of registrations and of nested calls of [Group]. *)
#[warnings="-register-all"]
Inductive Step : Type :=
| DoHandle (o : Operation) (h : Handler)
| DoGroup (fn : list Step) (middlewares : list Middleware).

(** One step; the case [DoGroup] is the body of [Group]: the route is set
    to collect, [fn] runs, and unless [handlers] is nil the collected
    handlers are registered in a router group; the deferred functions
    empty [handlers] and set the route back. *)
Fixpoint step (s : Step) (a : chiAdapter) : chiAdapter :=
  match s with
  | DoHandle o h => Handle a o h
  | DoGroup fn middlewares =>
      let a := mkchiAdapter (router a) collect (handlers a) in
      let a := fold_left (fun a s => step s a) fn a in
      match handlers a with
      | None => mkchiAdapter (router a) defaultHandler None
      | Some hs =>
          let registered :=
            List.map (fun h => (Method (op h), Path (op h), handler h)) hs in
          mkchiAdapter
            (router a ++ [RouterGroup middlewares registered])%list
            defaultHandler (Some [])
      end
  end.

(** Running a function's steps. *)
Definition run (fn : list Step) (a : chiAdapter) : chiAdapter :=
  fold_left (fun a s => step s a) fn a.

(** [Group(fn, middlewares...)]. *)
Definition Group (a : chiAdapter) (fn : list Step)
    (middlewares : list Middleware) : chiAdapter :=
  step (DoGroup fn middlewares) a.

(** A function that only registers the given operations. *)
Definition registering (l : list params) : list Step :=
  List.map (fun h => DoHandle (op h) (handler h)) l.

Definition registrations (l : list params)
    : list (string * string * Handler) :=
  List.map (fun h => (Method (op h), Path (op h), handler h)) l.

Definition direct (l : list params) : list RouterCall :=
  List.map (fun h => MethodFunc (Method (op h)) (Path (op h)) (handler h)) l.

End humachi.

(** ** Package humatest: the request of [testAPI.Do], and the dumps *)

Module humatest.

(** The body of a request or response: an [io.ReadCloser], as what reading
    it to the end gives, the bytes and then the end of the data or an
    error. *)
Record ReadCloser : Type := mkReadCloser {
  content : string;
  failure : option string
}.

(** [io.ReadAll]: the bytes read and the error, if any. *)
Definition ReadAll (r : ReadCloser) : string * option string :=
  (content r, failure r).

(** The reader after it has been read to the end: no byte is left, and a
    reader that failed keeps failing. *)
Definition drain (r : ReadCloser) : ReadCloser :=
  mkReadCloser EmptyString (failure r).

(** [io.NopCloser(bytes.NewReader(b))]. *)
Definition NewReader (b : string) : ReadCloser := mkReadCloser b None.

(** [io.NopCloser(iotest.ErrReader(err))]: every read fails with [err]. *)
Definition ErrReader (err : string) : ReadCloser :=
  mkReadCloser EmptyString (Some err).

(** An argument of [Do], by the case the first loop takes for it: an
    [io.Reader]; else a string; else a struct, map or slice, with the result
    of [json.Marshal] ([None] for an error); else anything else. *)
Inductive Arg : Type :=
| IsReader (r : ReadCloser)
| IsString (s : string)
| IsEncodable (encoded : option string)
| IsOther.

(** The request: its header (looked up by canonical key), host and body. *)
Record Request : Type := mkRequest {
  Header : string -> option string;
  Host : string;
  Body : option ReadCloser
}.

Section Requests.

(** [strings.TrimSpace], [strings.ToLower] and
    [textproto.CanonicalMIMEHeaderKey] are the standard library's. *)
Variable TrimSpace : string -> string.
Variable ToLower : string -> string.
Variable CanonicalMIMEHeaderKey : string -> string.

(** [h.Set(key, value)] on an [http.Header]. *)
Definition Header_Set (h : string -> option string) (key value : string)
    : string -> option string :=
  fun k => if String.eqb k (CanonicalMIMEHeaderKey key) then Some value
           else h k.

(** [h.Get(key)]. *)
Definition Header_Get (h : string -> option string) (key : string)
    : option string :=
  h (CanonicalMIMEHeaderKey key).

(** The first loop of [Do], over the arguments: the body [b] and the flag
    [isJSON]; [None] is a panic.  The loop ends at the first reader. *)
Fixpoint Do_body (args : list Arg) (b : option ReadCloser) (isJSON : bool)
    : option (option ReadCloser * bool) :=
  match args with
  | [] => Some (b, isJSON)
  | IsReader reader :: _ => Some (Some reader, isJSON)
  | IsString _ :: rest => Do_body rest b isJSON
  | IsEncodable (Some encoded) :: rest =>
      Do_body rest (Some (NewReader encoded)) true
  | IsEncodable None :: _ => None
  | IsOther :: _ => None
  end.

(** The second loop's body for a string argument [s]; [None] is the panic
    of [parts[1]] out of range. *)
Definition Do_header (s : string) (req : Request) : option Request :=
  let parts := strings.Split s ":" in
  let req :=
    mkRequest
      (Header_Set (Header req) (hd EmptyString parts)
         (TrimSpace (strings.Join (tl parts) ":")))
      (Host req) (Body req) in
  if String.eqb (ToLower (hd EmptyString parts)) "host" then
    match nth_error parts 1 with
    | Some part => Some (mkRequest (Header req) (TrimSpace part) (Body req))
    | None => None
    end
  else Some req.

(** The second loop of [Do]: every string argument, in order. *)
Fixpoint Do_headers (args : list Arg) (req : Request) : option Request :=
  match args with
  | [] => Some req
  | IsString s :: rest =>
      match Do_header s req with
      | Some req => Do_headers rest req
      | None => None
      end
  | _ :: rest => Do_headers rest req
  end.

(** [Do], up to the request it builds, before the request is logged and
    served.  [urlHost] is the host of the request [http.NewRequest] makes,
    [None] when it fails (the request is then nil, and setting its
    [RequestURI] panics). *)
Definition Do_request (args : list Arg) (urlHost : option string)
    : option Request :=
  match Do_body args None false with
  | None => None
  | Some (b, isJSON) =>
      match urlHost with
      | None => None
      | Some host =>
          let req := mkRequest (fun _ => None) host b in
          let req :=
            if isJSON
            then mkRequest
                   (Header_Set (Header req) "Content-Type" "application/json")
                   (Host req) (Body req)
            else req in
          Do_headers args req
      end
  end.

End Requests.

Section Dumps.

(** [json.Indent(buf, b, "", "  ")]: the indented text it appends to the
    buffer, or [None] when [b] is not valid JSON and nothing is appended. *)
Variable Indent : string -> option string.

(** [dumpBody(body, buf)]: the body and the error returned, and the
    buffer after the call.  [io.ReadAll] consumes the body it is given:
    after it, [body] is the drained reader. *)
Definition dumpBody (body : option ReadCloser) (buf : string)
    : (option ReadCloser * option string) * string :=
  match body with
  | None => ((None, None), buf)
  | Some body =>
      let (b, err) := ReadAll body in
      let body := drain body in
      match err with
      | Some err => ((Some (ErrReader err), Some err), buf)
      | None =>
          let buf :=
            if strings.Contains buf "json"
            then match Indent b with
                 | Some indented => buf ++ indented
                 | None => buf
                 end
            else buf ++ b in
          ((Some (NewReader b), None), buf)
      end
  end.

(** [DumpRequest(req)]: the bytes and the error returned, and [req.Body]
    after the call.  [head] is the result of
    [httputil.DumpRequest(req, false)], the request line and headers or an
    error. *)
Definition DumpRequest (head : string + string) (body : option ReadCloser)
    : (string * option string) * option ReadCloser :=
  match head with
  | inl b =>
      let buf := b in
      let '((body, err), buf) := dumpBody body buf in
      ((buf, err), body)
  | inr err => ((EmptyString, Some err), body)
  end.

End Dumps.

End humatest.

(** Stand-ins for the library functions in the concrete runs: spaces are
    trimmed, and the letter case and the key are left as they are. *)
Definition sampleTrimSpace (s : string) : string := strings.Trim s " ".
Definition sampleToLower (s : string) : string := s.
Definition sampleCanonicalKey (s : string) : string := s.

(** ** The runs of the blocks *)

Lemma ifNoneMatchLoop_run (p : Params) (etag foundMsg : string)
    (l : list string) (failed : bool) (ctx : Context) :
  ifNoneMatchLoop p etag foundMsg l failed ctx =
  (failed || existsb (noneMatchHit etag) l,
   (ctx ++ (if isWrite p
            then List.map AddError
                   (List.map (noneMatchDetail foundMsg)
                      (List.filter (noneMatchHit etag) l))
            else []))%list).
Proof.
  revert failed ctx.
  induction l as [|m rest IH]; intros failed ctx; cbn [ifNoneMatchLoop].
  - unfold ret. cbn. rewrite orb_false_r.
    destruct (isWrite p); cbn; now rewrite app_nil_r.
  - cbn [existsb List.filter]. fold (noneMatchHit etag m).
    destruct (noneMatchHit etag m).
    + unfold bind, when, call, ret.
      destruct (isWrite p); cbn; rewrite IH; cbn;
        rewrite <- ?app_assoc, orb_true_r; reflexivity.
    + rewrite IH. reflexivity.
Qed.

Lemma checkIfMatch_run (p : Params) (etag foundMsg : string)
    (failed : bool) (ctx : Context) :
  checkIfMatch p etag foundMsg failed ctx =
  (failed || matchFails p etag,
   (ctx ++ (if isWrite p && matchFails p etag
            then [AddError (matchDetail p foundMsg)] else []))%list).
Proof.
  unfold checkIfMatch, matchFails, bind, when, call, ret.
  destruct (0 <? List.length (IfMatch p))%nat,
    (ifMatchFound etag (IfMatch p)), (isWrite p); cbn;
    rewrite ?orb_false_r, ?orb_true_r, ?app_nil_r; reflexivity.
Qed.

Lemma checkIfModifiedSince_run (fmt : time.Time -> string) (p : Params)
    (modified : time.Time) (failed : bool) (ctx : Context) :
  checkIfModifiedSince fmt p modified failed ctx =
  (failed || modifiedSinceFails p modified,
   (ctx ++ (if isWrite p && modifiedSinceFails p modified
            then [AddError (modifiedSinceDetail fmt p modified)]
            else []))%list).
Proof.
  unfold checkIfModifiedSince. fold (modifiedSinceFails p modified).
  unfold bind, when, call, ret.
  destruct (modifiedSinceFails p modified), (isWrite p); cbn;
    rewrite ?orb_false_r, ?orb_true_r, ?app_nil_r; reflexivity.
Qed.

Lemma checkIfUnmodifiedSince_run (fmt : time.Time -> string) (p : Params)
    (modified : time.Time) (failed : bool) (ctx : Context) :
  checkIfUnmodifiedSince fmt p modified failed ctx =
  (failed || unmodifiedSinceFails p modified,
   (ctx ++ (if isWrite p && unmodifiedSinceFails p modified
            then [AddError (unmodifiedSinceDetail fmt p modified)]
            else []))%list).
Proof.
  unfold checkIfUnmodifiedSince. fold (unmodifiedSinceFails p modified).
  unfold bind, when, call, ret.
  destruct (unmodifiedSinceFails p modified), (isWrite p); cbn;
    rewrite ?orb_false_r, ?orb_true_r, ?app_nil_r; reflexivity.
Qed.

Lemma respond_run (p : Params) (failed : bool) (ctx : Context) :
  respond p failed ctx =
  (failed, (ctx ++ (if failed then [response p] else []))%list).
Proof.
  unfold respond, response. destruct failed; cbn.
  - unfold bind, call, ret. now destruct (isWrite p).
  - unfold ret. now rewrite app_nil_r.
Qed.

(** The whole evaluation: the result is whether some check failed, and the
    context gains the error details of a write and then the response. *)
Lemma PreconditionFailed_run (fmt : time.Time -> string) (p : Params)
    (etag : string) (modified : time.Time) (ctx : Context) :
  PreconditionFailed fmt p etag modified ctx =
  (anyFails p etag modified, (ctx ++ calls fmt p etag modified)%list).
Proof.
  unfold PreconditionFailed, bind.
  rewrite ifNoneMatchLoop_run, checkIfMatch_run, checkIfModifiedSince_run,
    checkIfUnmodifiedSince_run, respond_run.
  fold (foundMsgOf etag). fold (noneMatchFails p etag).
  unfold calls, writeErrors, anyFails. cbn [orb].
  f_equal. rewrite <- !app_assoc. f_equal.
  destruct (isWrite p); cbn [andb]; [|reflexivity].
  rewrite !map_app, <- !app_assoc. f_equal.
  destruct (matchFails p etag), (modifiedSinceFails p modified),
    (unmodifiedSinceFails p modified); reflexivity.
Qed.

(** ** Facts on the library functions *)

Lemma substring_all (s : string) : substring 0 (String.length s) s = s.
Proof.
  induction s as [|a s IH]; cbn; [reflexivity|]. now rewrite IH.
Qed.

Lemma trimLeftByte_first (s : string) (c : ascii) :
  first_byte (strings.trimLeftByte s c) <> Some c.
Proof.
  induction s as [|a s IH]; cbn; [discriminate|].
  destruct (Ascii.eqb a c) eqn:E; [exact IH|].
  cbn. intros [= ->]. now rewrite Ascii.eqb_refl in E.
Qed.

Lemma last_byte_cons (a : ascii) (s : string) :
  s <> EmptyString -> last_byte (String a s) = last_byte s.
Proof. destruct s; [congruence|reflexivity]. Qed.

Lemma trimLeftByte_last (s : string) (c : ascii) :
  last_byte s <> Some c -> last_byte (strings.trimLeftByte s c) <> Some c.
Proof.
  induction s as [|a s IH]; cbn [strings.trimLeftByte]; intros H; [exact H|].
  destruct (Ascii.eqb a c); [|exact H].
  destruct s as [|b s]; [cbn; discriminate|].
  apply IH. now rewrite last_byte_cons in H.
Qed.

Lemma trimRightByte_last (s : string) (c : ascii) :
  last_byte (strings.trimRightByte s c) <> Some c.
Proof.
  induction s as [|a s IH]; cbn [strings.trimRightByte]; [cbn; discriminate|].
  destruct (strings.trimRightByte s c) as [|b r] eqn:E.
  - destruct (Ascii.eqb a c) eqn:Ea; cbn; [discriminate|].
    intros [= ->]. now rewrite Ascii.eqb_refl in Ea.
  - now rewrite last_byte_cons.
Qed.

Lemma Trim_bare (s : string) : bare (strings.Trim s dquote).
Proof.
  split; unfold strings.Trim.
  - apply trimLeftByte_first.
  - apply trimLeftByte_last, trimRightByte_last.
Qed.

(** Trimming leaves a string alone that has the byte at neither end. *)
Lemma trimRightByte_id (s : string) (c : ascii) :
  last_byte s <> Some c -> strings.trimRightByte s c = s.
Proof.
  induction s as [|a s IH]; cbn [strings.trimRightByte]; [reflexivity|].
  intros H. destruct s as [|b s].
  - cbn in *. destruct (Ascii.eqb a c) eqn:E; [|reflexivity].
    apply Ascii.eqb_eq in E. congruence.
  - rewrite last_byte_cons in H by discriminate. now rewrite (IH H).
Qed.

Lemma trimLeftByte_id (s : string) (c : ascii) :
  first_byte s <> Some c -> strings.trimLeftByte s c = s.
Proof.
  destruct s as [|a s]; cbn; [reflexivity|]. intros H.
  destruct (Ascii.eqb a c) eqn:E; [|reflexivity].
  apply Ascii.eqb_eq in E. congruence.
Qed.

Lemma last_byte_snoc (s : string) (c : ascii) :
  last_byte (s ++ String c EmptyString) = Some c.
Proof.
  induction s as [|a s IH]; [reflexivity|].
  cbn [append]. rewrite last_byte_cons; [exact IH|]. now destruct s.
Qed.

Lemma trimRightByte_snoc (s : string) (c : ascii) :
  strings.trimRightByte (s ++ String c EmptyString) c
  = strings.trimRightByte s c.
Proof.
  induction s as [|a s IH]; cbn [append strings.trimRightByte].
  - now rewrite Ascii.eqb_refl.
  - now rewrite IH.
Qed.

(** A bare tag in quotes trims to the tag. *)
Lemma Trim_quoted (s : string) :
  bare s -> strings.Trim (quoted s) dquote = s.
Proof.
  intros [Hf Hl]. unfold strings.Trim, quoted.
  assert (E : strings.trimRightByte
                (String dquote (s ++ String dquote EmptyString)) dquote
              = String dquote s \/
              (s = EmptyString /\
               strings.trimRightByte
                 (String dquote (s ++ String dquote EmptyString)) dquote
               = EmptyString)).
  { cbn [strings.trimRightByte]. rewrite trimRightByte_snoc.
    rewrite (trimRightByte_id s dquote Hl).
    destruct s; [right|left]; now rewrite ?Ascii.eqb_refl. }
  destruct E as [-> | [-> ->]]; [|reflexivity].
  cbn [strings.trimLeftByte]. rewrite Ascii.eqb_refl.
  now apply trimLeftByte_id.
Qed.

(** [After] is the strict order of instants. *)
Lemma After_instant (t u : time.Time) :
  time.wf t -> time.wf u ->
  (time.After t u = true <-> (time.instant u < time.instant t)%Z).
Proof.
  unfold time.wf, time.After, time.instant. intros Ht Hu.
  rewrite orb_true_iff, andb_true_iff, !Z.gtb_ltb, !Z.ltb_lt, Z.eqb_eq.
  split; [intros [H | [H1 H2]]; nia|intros H].
  destruct (Z.eq_dec (time.sec t) (time.sec u)) as [E|E]; [right|left]; nia.
Qed.

Lemma IsZero_true_iff (t : time.Time) :
  time.IsZero t = true <-> t = time.zero.
Proof.
  unfold time.IsZero, time.zero. rewrite andb_true_iff, !Z.eqb_eq.
  destruct t as [s n]; cbn. split; [intros [-> ->]|intros [= -> ->]]; auto.
Qed.

(** ** Facts on the two tag loops *)

Lemma noneMatchHit_iff (etag m : string) :
  noneMatchHit etag m = true <->
  trimETag m = etag \/ (trimETag m = "*" /\ etag <> "").
Proof.
  unfold noneMatchHit.
  rewrite orb_true_iff, andb_true_iff, negb_true_iff, !String.eqb_eq,
    String.eqb_neq.
  reflexivity.
Qed.

Lemma noneMatchFails_iff (p : Params) (etag : string) :
  noneMatchFails p etag = true <->
  exists m, In m (IfNoneMatch p)
            /\ (trimETag m = etag \/ (trimETag m = "*" /\ etag <> "")).
Proof.
  unfold noneMatchFails. rewrite existsb_exists.
  split; intros [m [Hin H]]; exists m; split; auto;
    now apply noneMatchHit_iff.
Qed.

Lemma ifMatchFound_iff (etag : string) (l : list string) :
  ifMatchFound etag l = true <-> exists m, In m l /\ trimETag m = etag.
Proof.
  induction l as [|a l IH]; cbn.
  - split; [discriminate|intros [m [[] _]]].
  - destruct (String.eqb (trimETag a) etag) eqn:E.
    + apply String.eqb_eq in E. split; [|reflexivity].
      intros _. exists a. auto.
    + apply String.eqb_neq in E. rewrite IH.
      split; intros [m [Hin H]]; exists m; [auto|].
      destruct Hin as [-> | Hin]; [contradiction|auto].
Qed.

Lemma matchFails_iff (p : Params) (etag : string) :
  matchFails p etag = true <->
  IfMatch p <> [] /\ forall m, In m (IfMatch p) -> trimETag m <> etag.
Proof.
  unfold matchFails. rewrite andb_true_iff, negb_true_iff, Nat.ltb_lt.
  split; intros [H1 H2]; split.
  - intros E. rewrite E in H1. cbn in H1. lia.
  - intros m Hin E.
    assert (ifMatchFound etag (IfMatch p) = true)
      by (apply ifMatchFound_iff; eauto).
    congruence.
  - destruct (IfMatch p); [congruence|cbn; lia].
  - destruct (ifMatchFound etag (IfMatch p)) eqn:E; [|reflexivity].
    apply ifMatchFound_iff in E. destruct E as [m [Hin E]].
    now apply H2 in Hin.
Qed.

(** ** Reading the context after a run *)

Lemma ctx_errors_app (c1 c2 : Context) :
  ctx_errors (c1 ++ c2)%list = (ctx_errors c1 ++ ctx_errors c2)%list.
Proof.
  induction c1 as [|[e|st msg|st] c1 IH]; cbn; now rewrite ?IH.
Qed.

Lemma ctx_statuses_app (c1 c2 : Context) :
  ctx_statuses (c1 ++ c2)%list = (ctx_statuses c1 ++ ctx_statuses c2)%list.
Proof.
  induction c1 as [|[e|st msg|st] c1 IH]; cbn; now rewrite ?IH.
Qed.

Lemma ctx_bodies_app (c1 c2 : Context) :
  ctx_bodies (c1 ++ c2)%list = (ctx_bodies c1 ++ ctx_bodies c2)%list.
Proof.
  induction c1 as [|[e|st msg|st] c1 IH]; cbn; now rewrite ?IH.
Qed.

Lemma ctx_of_added (l : list ErrorDetail) :
  ctx_errors (List.map AddError l) = l
  /\ ctx_statuses (List.map AddError l) = []
  /\ ctx_bodies (List.map AddError l) = [].
Proof.
  induction l as [|e l (IH1 & IH2 & IH3)]; cbn; [auto|].
  now rewrite IH1, IH2, IH3.
Qed.

Lemma ctx_errors_calls (fmt : time.Time -> string) (p : Params)
    (etag : string) (modified : time.Time) :
  ctx_errors (calls fmt p etag modified)
  = if isWrite p then writeErrors fmt p etag modified else [].
Proof.
  unfold calls, response. rewrite ctx_errors_app.
  destruct (isWrite p), (anyFails p etag modified); cbn;
    rewrite ?(proj1 (ctx_of_added _)), ?app_nil_r; reflexivity.
Qed.

Lemma evaluate_run (fmt : time.Time -> string) (p : Params)
    (etag : string) (modified : time.Time) :
  evaluate fmt p etag modified =
  if anyFails p etag modified
  then Blocked (if isWrite p then writeErrors fmt p etag modified else [])
  else Proceed.
Proof.
  unfold evaluate, outcome. rewrite PreconditionFailed_run. cbn [fst snd].
  now rewrite app_nil_l, ctx_errors_calls.
Qed.

(** When no check fails the evaluation makes no call. *)
Lemma calls_none_when_no_check_fails (fmt : time.Time -> string)
    (p : Params) (etag : string) (modified : time.Time) :
  anyFails p etag modified = false -> calls fmt p etag modified = [].
Proof.
  intros Hany. unfold calls, writeErrors. rewrite Hany.
  unfold anyFails in Hany. rewrite !orb_false_iff in Hany.
  destruct Hany as [[[H1 H2] H3] H4]. rewrite H2, H3, H4.
  unfold noneMatchFails in H1.
  assert (Hf : List.filter (noneMatchHit etag) (IfNoneMatch p) = []).
  { induction (IfNoneMatch p) as [|m l IH]; [reflexivity|].
    cbn in H1 |- *. apply orb_false_iff in H1. destruct H1 as [-> H1].
    now apply IH. }
  rewrite Hf. cbn. now destruct (isWrite p).
Qed.

(** ** Normalization of entity tags *)

(** C1, as the code has it: every supplied entity-tag is normalized by
    [trimETag] before it is compared: a leading [W/] is removed when
    something follows it, then the quote characters at both ends are
    removed.  The resource's own tag is not normalized: it is compared as
    the caller passed it.  So a supplied tag matches exactly when its
    normalized form equals the resource's tag, and a resource tag [abc]
    matches the supplied values ["abc"] and [W/"abc"]. *)
Theorem supplied_tag_normalized_resource_tag_as_passed
    (etag supplied s : string) (a : ascii) (p : Params) (foundMsg : string)
    (ctx : Context) :
  bare s ->
  (ifMatchFound etag [supplied] = true <-> trimETag supplied = etag)
  /\ (fst (ifNoneMatchLoop p etag foundMsg [supplied] false ctx) = true <->
      trimETag supplied = etag \/ (trimETag supplied = "*" /\ etag <> ""))
  /\ bare (trimETag supplied)
  /\ (strings.HasPrefix supplied "W/" = false ->
      trimETag supplied = strings.Trim supplied dquote)
  /\ trimETag ("W/" ++ String a supplied)
     = strings.Trim (String a supplied) dquote
  /\ trimETag "W/" = "W/"
  /\ trimETag (quoted s) = s
  /\ trimETag ("W/" ++ quoted s) = s.
Proof.
  intros Hs. repeat split.
  - intros H. apply ifMatchFound_iff in H.
    destruct H as [m [[<- | []] H]]. exact H.
  - intros H. apply ifMatchFound_iff. exists supplied. cbn. auto.
  - rewrite ifNoneMatchLoop_run. cbn [fst existsb orb].
    rewrite orb_false_r. apply noneMatchHit_iff.
  - rewrite ifNoneMatchLoop_run. cbn [fst existsb orb].
    rewrite orb_false_r. apply noneMatchHit_iff.
  - apply Trim_bare.
  - apply Trim_bare.
  - intros H. unfold trimETag. now rewrite H.
  - unfold trimETag, strings.HasPrefix, strings.from. cbn.
    now rewrite substring_all.
  - unfold trimETag. cbn [strings.HasPrefix]. now apply Trim_quoted.
  - unfold trimETag, strings.HasPrefix, strings.from, quoted.
    cbn. rewrite substring_all. now apply (Trim_quoted s).
Qed.

Lemma supplied_tag_normalized_resource_tag_as_passed_witness :
  bare "abc"
  /\ (ifMatchFound "abc" [quoted "abc"] = true <->
      trimETag (quoted "abc") = "abc")
  /\ trimETag (quoted "abc") = strings.Trim (quoted "abc") dquote
  /\ trimETag (quoted "abc") = "abc"
  /\ trimETag ("W/" ++ quoted "abc") = "abc".
Proof.
  assert (Hb : bare "abc") by (split; cbn; discriminate).
  pose proof (supplied_tag_normalized_resource_tag_as_passed
                "abc" (quoted "abc") "abc" dquote
                (mkParams [] [] time.zero time.zero false) "" [] Hb)
    as (H1 & _ & _ & H4 & _ & _ & H7 & H8).
  exact (conj Hb (conj H1 (conj (H4 eq_refl) (conj H7 H8)))).
Defined.

(** The resource's tag is compared without normalization: a resource tag
    stored in quotes does not match the same tag supplied in quotes, though
    the normalized forms are equal. *)
Lemma resource_tag_in_quotes_does_not_match :
  trimETag (quoted "abc") = "abc"
  /\ ifMatchFound (quoted "abc") [quoted "abc"] = false
  /\ evaluate sampleFormat
       (mkParams [quoted "abc"] [] time.zero time.zero false)
       (quoted "abc") time.zero = Blocked []
  /\ ~ (forall etag supplied,
          ifMatchFound etag [supplied] = true <->
          trimETag supplied = trimETag etag).
Proof.
  repeat split; try reflexivity.
  intros H. specialize (H (quoted "abc") (quoted "abc")).
  destruct H as [_ H]. specialize (H eq_refl). discriminate H.
Qed.

(** ** The error details of a write *)

(** C2, at an input where the code leaves the claim: a write on the
    resource [abc] with If-None-Match holding the strong and the weak form
    of that tag.  One check fails (If-None-Match; no other header is set)
    and the loop, which does not stop at the first match, adds two error
    details for it. *)
Theorem none_match_loop_adds_a_detail_per_matching_value :
  evaluate sampleFormat
    (mkParams [] [quoted "abc"; "W/" ++ quoted "abc"] time.zero time.zero true)
    "abc" time.zero
  = Blocked
      [noneMatchDetail "found resource with ETag abc" (quoted "abc");
       noneMatchDetail "found resource with ETag abc" ("W/" ++ quoted "abc")]
  /\ noneMatchFails
       (mkParams [] [quoted "abc"; "W/" ++ quoted "abc"] time.zero time.zero
          true) "abc" = true
  /\ matchFails
       (mkParams [] [quoted "abc"; "W/" ++ quoted "abc"] time.zero time.zero
          true) "abc" = false
  /\ modifiedSinceFails
       (mkParams [] [quoted "abc"; "W/" ++ quoted "abc"] time.zero time.zero
          true) time.zero = false
  /\ unmodifiedSinceFails
       (mkParams [] [quoted "abc"; "W/" ++ quoted "abc"] time.zero time.zero
          true) time.zero = false.
Proof. repeat split. Qed.

(** ** The four checks *)

(** C3, as the code has it: the If-None-Match check fails exactly when
    some listed value, normalized, equals the resource's tag, or some
    listed value, normalized, is [*] while a resource exists (its tag is
    not empty).  The star is tested after normalization, so it need not be
    listed literally: [*] in quotes, or after [W/], counts as well.  A
    failed check blocks the evaluation, and with no other header present
    the evaluation blocks exactly then.  On the resource [abc] a write with
    If-None-Match ["abc"] is blocked with one error detail, located at
    If-None-Match; with only [W/"xyz"] it proceeds. *)
Theorem if_none_match_fails_on_listed_tag_or_star
    (fmt : time.Time -> string) (p : Params) (etag foundMsg : string)
    (modified : time.Time) (ctx : Context) :
  (fst (ifNoneMatchLoop p etag foundMsg (IfNoneMatch p) false ctx) = true <->
   exists m, In m (IfNoneMatch p)
             /\ (trimETag m = etag \/ (trimETag m = "*" /\ etag <> "")))
  /\ (fst (ifNoneMatchLoop p etag foundMsg (IfNoneMatch p) false ctx) = true ->
      fst (PreconditionFailed fmt p etag modified ctx) = true)
  /\ (IfMatch p = [] -> IfModifiedSince p = time.zero ->
      IfUnmodifiedSince p = time.zero ->
      (fst (PreconditionFailed fmt p etag modified ctx) = true <->
       exists m, In m (IfNoneMatch p)
                 /\ (trimETag m = etag \/ (trimETag m = "*" /\ etag <> ""))))
  /\ evaluate fmt (mkParams [] [quoted "abc"] time.zero time.zero true)
       "abc" modified
     = Blocked
         [{| Message := "If-None-Match: " ++ quoted "abc"
                        ++ " precondition failed, found resource with ETag abc";
             Location := "request.headers.If-None-Match";
             Value := VString (quoted "abc") |}]
  /\ evaluate fmt (mkParams [] ["W/" ++ quoted "xyz"] time.zero time.zero true)
       "abc" modified
     = Proceed.
Proof.
  rewrite ifNoneMatchLoop_run, PreconditionFailed_run. cbn [fst orb].
  fold (noneMatchFails p etag). rewrite noneMatchFails_iff.
  split; [reflexivity|]. split; [|split; [|split]].
  - intros H. apply noneMatchFails_iff in H. unfold anyFails.
    now rewrite H.
  - intros Him Hms Hus. rewrite <- noneMatchFails_iff.
    unfold anyFails, matchFails, modifiedSinceFails, unmodifiedSinceFails.
    rewrite Him, Hms, Hus. cbn. now rewrite !orb_false_r.
  - now rewrite evaluate_run.
  - now rewrite evaluate_run.
Qed.

Lemma if_none_match_fails_on_listed_tag_or_star_witness :
  fst (PreconditionFailed sampleFormat
         (mkParams [] ["*"] time.zero time.zero false) "abc" time.zero [])
  = true.
Proof.
  pose proof (if_none_match_fails_on_listed_tag_or_star sampleFormat
                (mkParams [] ["*"] time.zero time.zero false) "abc" ""
                time.zero [])
    as (_ & _ & H & _).
  apply (H eq_refl eq_refl eq_refl).
  exists "*". split; [left; reflexivity|].
  right. split; [reflexivity|discriminate].
Defined.

(** The star need not be listed literally: on the resource [abc], an
    If-None-Match that lists only the star in quotes, or only [W/*], blocks,
    though the literal [*] is not listed and no listed value, normalized,
    equals the resource's tag. *)
Lemma star_in_quotes_blocks_without_a_literal_star :
  ~ In "*" [quoted "*"]
  /\ trimETag (quoted "*") <> "abc"
  /\ fst (ifNoneMatchLoop
            (mkParams [] [quoted "*"] time.zero time.zero true) "abc"
            "found resource with ETag abc" [quoted "*"] false [])
     = true
  /\ evaluate sampleFormat
       (mkParams [] [quoted "*"] time.zero time.zero false) "abc" time.zero
     = Blocked []
  /\ evaluate sampleFormat
       (mkParams [] ["W/*"] time.zero time.zero false) "abc" time.zero
     = Blocked []
  /\ ~ (forall (p : Params) (etag foundMsg : string) (ctx : Context),
          fst (ifNoneMatchLoop p etag foundMsg (IfNoneMatch p) false ctx)
          = true <->
          (exists m, In m (IfNoneMatch p) /\ trimETag m = etag)
          \/ (In "*" (IfNoneMatch p) /\ etag <> "")).
Proof.
  split; [intros [H | []]; discriminate H|].
  split; [discriminate|].
  split; [reflexivity|]. split; [reflexivity|]. split; [reflexivity|].
  intros H.
  specialize (H (mkParams [] [quoted "*"] time.zero time.zero true) "abc"
                "" []).
  destruct H as [H _]. specialize (H eq_refl).
  destruct H as [[m [[<- | []] Hm]] | [[Hs | []] _]]; discriminate.
Qed.

(** C4: when a check fails on a read, the evaluation is blocked and adds no
    error detail: the outcome is [Blocked] with an empty list.  When no
    check fails, on a read or a write, the outcome is [Proceed] and the
    context is left as it was; that is so when no conditional header is
    present. *)
Theorem read_is_blocked_without_details
    (fmt : time.Time -> string) (p : Params) (etag : string)
    (modified : time.Time) (ctx : Context) :
  (isWrite p = false ->
   noneMatchFails p etag = true \/ matchFails p etag = true
   \/ modifiedSinceFails p modified = true
   \/ unmodifiedSinceFails p modified = true ->
   evaluate fmt p etag modified = Blocked []
   /\ fst (PreconditionFailed fmt p etag modified ctx) = true
   /\ ctx_errors (snd (PreconditionFailed fmt p etag modified ctx))
      = ctx_errors ctx)
  /\ (noneMatchFails p etag = false -> matchFails p etag = false ->
      modifiedSinceFails p modified = false ->
      unmodifiedSinceFails p modified = false ->
      evaluate fmt p etag modified = Proceed
      /\ PreconditionFailed fmt p etag modified ctx = (false, ctx))
  /\ (HasConditionalParams p = false ->
      evaluate fmt p etag modified = Proceed
      /\ PreconditionFailed fmt p etag modified ctx = (false, ctx)).
Proof.
  rewrite evaluate_run, PreconditionFailed_run. cbn [fst snd].
  rewrite ctx_errors_app, ctx_errors_calls.
  assert (Hnone : anyFails p etag modified = false ->
                  (if anyFails p etag modified
                   then Blocked (if isWrite p
                                 then writeErrors fmt p etag modified else [])
                   else Proceed) = Proceed
                  /\ (anyFails p etag modified,
                      (ctx ++ calls fmt p etag modified)%list) = (false, ctx)).
  { intros Hany.
    rewrite (calls_none_when_no_check_fails fmt p etag modified Hany), Hany.
    now rewrite app_nil_r. }
  assert (Hcond : HasConditionalParams p = false ->
                  anyFails p etag modified = false).
  { unfold HasConditionalParams, anyFails,
      noneMatchFails, matchFails, modifiedSinceFails, unmodifiedSinceFails.
    intros H. rewrite !orb_false_iff in H. destruct H as [[[H1 H2] H3] H4].
    rewrite H1, H3, H4. cbn.
    destruct (IfNoneMatch p); [reflexivity|discriminate H2]. }
  split; [|split].
  - intros Hread Hfail.
    assert (Hany : anyFails p etag modified = true).
    { unfold anyFails. rewrite !orb_true_iff. tauto. }
    rewrite Hany, Hread. cbn [ctx_errors]. rewrite app_nil_r. auto.
  - intros H1 H2 H3 H4. apply Hnone. unfold anyFails.
    now rewrite H1, H2, H3, H4.
  - intros H. apply Hnone, Hcond, H.
Qed.

Lemma read_is_blocked_without_details_witness :
  evaluate sampleFormat
    (mkParams [] [quoted "abc"] time.zero time.zero false) "abc" time.zero
  = Blocked []
  /\ evaluate sampleFormat
       (mkParams [] [] time.zero time.zero true) "abc" time.zero
     = Proceed.
Proof.
  split.
  - apply (read_is_blocked_without_details sampleFormat
             (mkParams [] [quoted "abc"] time.zero time.zero false) "abc"
             time.zero []); [reflexivity|left; reflexivity].
  - apply (read_is_blocked_without_details sampleFormat
             (mkParams [] [] time.zero time.zero true) "abc" time.zero []).
    reflexivity.
Defined.

(** C5: the If-Match check fails exactly when the If-Match list is not
    empty and no listed value, normalized, equals the resource's tag.  An
    empty list never fails, whatever the resource's tag: the block leaves
    the flag and the context as they were.  With no other header present
    the evaluation blocks exactly when the check fails. *)
Theorem if_match_fails_when_no_listed_tag_matches
    (fmt : time.Time -> string) (p : Params) (etag foundMsg : string)
    (modified : time.Time) (failed : bool) (ctx : Context) :
  (fst (checkIfMatch p etag foundMsg false ctx) = true <->
   IfMatch p <> [] /\ forall m, In m (IfMatch p) -> trimETag m <> etag)
  /\ (IfMatch p = [] ->
      checkIfMatch p etag foundMsg failed ctx = (failed, ctx))
  /\ (fst (checkIfMatch p etag foundMsg false ctx) = true ->
      fst (PreconditionFailed fmt p etag modified ctx) = true)
  /\ (IfNoneMatch p = [] -> IfModifiedSince p = time.zero ->
      IfUnmodifiedSince p = time.zero ->
      (fst (PreconditionFailed fmt p etag modified ctx) = true <->
       IfMatch p <> []
       /\ forall m, In m (IfMatch p) -> trimETag m <> etag)).
Proof.
  rewrite !checkIfMatch_run, PreconditionFailed_run. cbn [fst orb].
  split; [apply matchFails_iff|]. split; [|split].
  - intros H. unfold matchFails. rewrite H. cbn.
    now rewrite orb_false_r, andb_false_r, app_nil_r.
  - intros H. unfold anyFails. rewrite H. now rewrite orb_true_r.
  - intros Hnm Hms Hus. rewrite <- matchFails_iff.
    unfold anyFails, noneMatchFails, modifiedSinceFails, unmodifiedSinceFails.
    rewrite Hnm, Hms, Hus. cbn. now rewrite !orb_false_r.
Qed.

Lemma if_match_fails_when_no_listed_tag_matches_witness :
  checkIfMatch (mkParams [] [] time.zero time.zero true) "abc" "" true []
  = (true, [])
  /\ fst (PreconditionFailed sampleFormat
            (mkParams [quoted "xyz"] [] time.zero time.zero true) "abc"
            time.zero [])
     = true.
Proof.
  split.
  - apply (if_match_fails_when_no_listed_tag_matches sampleFormat
             (mkParams [] [] time.zero time.zero true) "abc" "" time.zero
             true []).
    reflexivity.
  - apply (if_match_fails_when_no_listed_tag_matches sampleFormat
             (mkParams [quoted "xyz"] [] time.zero time.zero true) "abc" ""
             time.zero false []); try reflexivity.
    split; [discriminate|].
    intros m [<- | []]. discriminate.
Defined.

(** C6: with a time supplied (not the zero time), the If-Modified-Since
    check fails exactly when the resource's modification time is not
    strictly after it, and the If-Unmodified-Since check fails exactly when
    the modification time is strictly after it.  When the modification time
    equals the supplied time, If-Modified-Since fails, so that a read is
    [Blocked] with no error detail, and If-Unmodified-Since passes. *)
Theorem time_checks_compare_strictly
    (fmt : time.Time -> string) (p : Params) (etag : string)
    (modified : time.Time) (failed : bool) (ctx : Context) :
  time.wf modified -> time.wf (IfModifiedSince p) ->
  time.wf (IfUnmodifiedSince p) ->
  (time.IsZero (IfModifiedSince p) = false ->
   (fst (checkIfModifiedSince fmt p modified false ctx) = true <->
    ~ (time.instant (IfModifiedSince p) < time.instant modified)%Z))
  /\ (time.IsZero (IfUnmodifiedSince p) = false ->
      (fst (checkIfUnmodifiedSince fmt p modified false ctx) = true <->
       (time.instant (IfUnmodifiedSince p) < time.instant modified)%Z))
  /\ (time.IsZero (IfModifiedSince p) = false ->
      modified = IfModifiedSince p ->
      fst (checkIfModifiedSince fmt p modified false ctx) = true
      /\ fst (PreconditionFailed fmt p etag modified ctx) = true
      /\ (isWrite p = false -> evaluate fmt p etag modified = Blocked []))
  /\ (time.IsZero (IfUnmodifiedSince p) = false ->
      modified = IfUnmodifiedSince p ->
      checkIfUnmodifiedSince fmt p modified failed ctx = (failed, ctx)).
Proof.
  intros Hm Hms Hus.
  rewrite !checkIfModifiedSince_run, !checkIfUnmodifiedSince_run,
    PreconditionFailed_run, evaluate_run.
  cbn [fst orb]. unfold modifiedSinceFails, unmodifiedSinceFails.
  pose proof (After_instant modified (IfModifiedSince p) Hm Hms) as Ha.
  pose proof (After_instant modified (IfUnmodifiedSince p) Hm Hus) as Hb.
  assert (Hirr : forall t, time.After t t = false).
  { intros t. unfold time.After.
    rewrite Z.eqb_refl, !Z.gtb_ltb, !Z.ltb_irrefl. reflexivity. }
  split; [|split; [|split]].
  - intros Hz. rewrite Hz. cbn [negb andb]. rewrite negb_true_iff.
    rewrite <- Ha. now destruct (time.After modified (IfModifiedSince p)).
  - intros Hz. rewrite Hz. cbn [negb andb]. exact Hb.
  - intros Hz ->. rewrite Hz, Hirr. cbn [negb andb].
    assert (Hany : anyFails p etag (IfModifiedSince p) = true).
    { unfold anyFails, modifiedSinceFails. rewrite Hz, Hirr. cbn.
      now rewrite orb_true_r. }
    rewrite Hany. repeat split. now intros ->.
  - intros Hz ->. rewrite Hz, Hirr. cbn.
    now rewrite orb_false_r, andb_false_r, app_nil_r.
Qed.

Lemma time_checks_compare_strictly_witness :
  evaluate sampleFormat
    (mkParams [] [] (time.mkTime 5 0) (time.mkTime 5 0) false) "abc"
    (time.mkTime 5 0)
  = Blocked []
  /\ checkIfUnmodifiedSince sampleFormat
       (mkParams [] [] (time.mkTime 5 0) (time.mkTime 5 0) false)
       (time.mkTime 5 0) false []
     = (false, []).
Proof.
  assert (Hwf : time.wf (time.mkTime 5 0)) by (unfold time.wf; cbn; lia).
  pose proof (time_checks_compare_strictly sampleFormat
                (mkParams [] [] (time.mkTime 5 0) (time.mkTime 5 0) false)
                "abc" (time.mkTime 5 0) false [] Hwf Hwf Hwf)
    as (_ & _ & H3 & H4).
  split.
  - apply (H3 eq_refl eq_refl). reflexivity.
  - apply (H4 eq_refl eq_refl).
Defined.

(** ** Effects of the evaluation *)

(** C7, as the code has it: the returned flag and the calls made on the
    context are determined by the parameters, the resource's tag and its
    modification time alone; the context's earlier contents are neither
    read nor changed, and [Params] is not changed.  The evaluation is not
    free of effects: it adds the error details of a write to the context
    and, when blocked, writes the response (412 or 304) itself. *)
Theorem evaluation_is_determined_by_params_and_resource
    (fmt : time.Time -> string) (p : Params) (etag : string)
    (modified : time.Time) :
  exists (blocked : bool) (added : list ErrorDetail) (written : list Call),
    (forall ctx,
       PreconditionFailed fmt p etag modified ctx
       = (blocked, (ctx ++ List.map AddError added ++ written)%list))
    /\ evaluate fmt p etag modified
       = (if blocked then Blocked added else Proceed)
    /\ written
       = (if blocked
          then [if isWrite p then WriteError 412 "Precondition Failed"
                else WriteHeader 304]
          else []).
Proof.
  exists (anyFails p etag modified),
    (if isWrite p then writeErrors fmt p etag modified else []),
    (if anyFails p etag modified then [response p] else []).
  split; [|split].
  - intros ctx. rewrite PreconditionFailed_run. unfold calls.
    now destruct (isWrite p).
  - apply evaluate_run.
  - reflexivity.
Qed.

(** The evaluation changes state outside its result: on a blocked read it
    writes status 304 to the response, on a blocked write status 412 and an
    error body. *)
Lemma evaluation_writes_the_response :
  ctx_statuses
    (snd (PreconditionFailed sampleFormat
            (mkParams [] [quoted "abc"] time.zero time.zero false) "abc"
            time.zero []))
  = [304%Z]
  /\ ctx_bodies
       (snd (PreconditionFailed sampleFormat
               (mkParams [] [quoted "abc"] time.zero time.zero true) "abc"
               time.zero []))
     = [(412%Z, "Precondition Failed")]
  /\ ~ (forall fmt p etag modified ctx,
          ctx_statuses (snd (PreconditionFailed fmt p etag modified ctx))
          = ctx_statuses ctx).
Proof.
  split; [reflexivity|]. split; [reflexivity|].
  intros H.
  specialize (H sampleFormat
                (mkParams [] [quoted "abc"] time.zero time.zero false) "abc"
                time.zero []).
  discriminate H.
Qed.

(** C8: on parameters not yet marked, [Resolve] marks the request as a
    write exactly when the method is POST, PUT, PATCH or DELETE, and changes
    nothing else.  For any other method, GET and HEAD among them, the mark
    stays off and the evaluation is that of a read: it adds no error detail
    and, when blocked, writes 304. *)
Theorem Resolve_marks_the_write_methods (p : Params) (method : string) :
  isWrite p = false ->
  (isWrite (Resolve p method) = true <->
   method = "POST" \/ method = "PUT" \/ method = "PATCH"
   \/ method = "DELETE")
  /\ IfMatch (Resolve p method) = IfMatch p
  /\ IfNoneMatch (Resolve p method) = IfNoneMatch p
  /\ IfModifiedSince (Resolve p method) = IfModifiedSince p
  /\ IfUnmodifiedSince (Resolve p method) = IfUnmodifiedSince p
  /\ isWrite (Resolve p "GET") = false
  /\ isWrite (Resolve p "HEAD") = false
  /\ (isWrite (Resolve p method) = false ->
      forall fmt etag modified ctx,
        PreconditionFailed fmt (Resolve p method) etag modified ctx
        = (anyFails p etag modified,
           (ctx ++ (if anyFails p etag modified
                    then [WriteHeader 304] else []))%list)).
Proof.
  intros Hp. unfold Resolve.
  unfold http.MethodPost, http.MethodPut, http.MethodPatch,
    http.MethodDelete.
  destruct (String.eqb method "POST" || String.eqb method "PUT"
            || String.eqb method "PATCH" || String.eqb method "DELETE")
    eqn:E.
  - rewrite !orb_true_iff, !String.eqb_eq in E. cbn.
    rewrite Hp. repeat split; try tauto. discriminate.
  - rewrite !orb_false_iff, !String.eqb_neq in E.
    rewrite Hp. cbn. repeat split; try tauto; try discriminate.
    intros _ fmt etag modified ctx. rewrite PreconditionFailed_run.
    unfold calls, response. now rewrite Hp.
Qed.

Lemma Resolve_marks_the_write_methods_witness :
  isWrite (Resolve (mkParams [] [] time.zero time.zero false) "PATCH") = true
  /\ isWrite (Resolve (mkParams [] [] time.zero time.zero false) "get")
     = false.
Proof.
  split.
  - apply (Resolve_marks_the_write_methods
             (mkParams [] [] time.zero time.zero false) "PATCH" eq_refl).
    right; right; left. reflexivity.
  - destruct (isWrite (Resolve (mkParams [] [] time.zero time.zero false)
                         "get")) eqn:E; [|reflexivity].
    apply (Resolve_marks_the_write_methods
             (mkParams [] [] time.zero time.zero false) "get" eq_refl) in E.
    destruct E as [E | [E | [E | E]]]; discriminate E.
Defined.

(** C9: a blocked evaluation (result [true]) has written the response
    before it returns: on a write, after the error details, an error
    response of status 412 and message [Precondition Failed]; on a read,
    the bare status 304 and no body.  An evaluation that returns [false]
    has written nothing: the context is as it was. *)
Theorem blocked_evaluation_writes_the_response
    (fmt : time.Time -> string) (p : Params) (etag : string)
    (modified : time.Time) (ctx : Context) :
  (fst (PreconditionFailed fmt p etag modified ctx) = true ->
   isWrite p = true ->
   snd (PreconditionFailed fmt p etag modified ctx)
   = (ctx ++ List.map AddError (writeErrors fmt p etag modified)
          ++ [WriteError 412 "Precondition Failed"])%list
   /\ ctx_statuses (snd (PreconditionFailed fmt p etag modified ctx))
      = (ctx_statuses ctx ++ [412%Z])%list
   /\ ctx_bodies (snd (PreconditionFailed fmt p etag modified ctx))
      = (ctx_bodies ctx ++ [(412%Z, "Precondition Failed")])%list)
  /\ (fst (PreconditionFailed fmt p etag modified ctx) = true ->
      isWrite p = false ->
      snd (PreconditionFailed fmt p etag modified ctx)
      = (ctx ++ [WriteHeader 304])%list
      /\ ctx_statuses (snd (PreconditionFailed fmt p etag modified ctx))
         = (ctx_statuses ctx ++ [304%Z])%list
      /\ ctx_bodies (snd (PreconditionFailed fmt p etag modified ctx))
         = ctx_bodies ctx)
  /\ (fst (PreconditionFailed fmt p etag modified ctx) = false ->
      snd (PreconditionFailed fmt p etag modified ctx) = ctx).
Proof.
  rewrite PreconditionFailed_run. cbn [fst snd].
  rewrite ctx_statuses_app, ctx_bodies_app. unfold calls, response.
  destruct (ctx_of_added (writeErrors fmt p etag modified)) as (_ & Hs & Hb).
  split; [|split].
  - intros -> ->. rewrite ctx_statuses_app, ctx_bodies_app, Hs, Hb. auto.
  - intros -> ->. cbn. now rewrite app_nil_r.
  - intros Hany. fold (response p). fold (calls fmt p etag modified).
    rewrite (calls_none_when_no_check_fails fmt p etag modified Hany).
    apply app_nil_r.
Qed.

Lemma blocked_evaluation_writes_the_response_witness :
  ctx_statuses
    (snd (PreconditionFailed sampleFormat
            (mkParams [quoted "xyz"] [] time.zero time.zero true) "abc"
            time.zero []))
  = [412%Z]
  /\ snd (PreconditionFailed sampleFormat
            (mkParams [quoted "xyz"] [] time.zero time.zero false) "abc"
            time.zero [])
     = [WriteHeader 304]
  /\ snd (PreconditionFailed sampleFormat
            (mkParams [quoted "abc"] [] time.zero time.zero true) "abc"
            time.zero [])
     = [].
Proof.
  split; [|split].
  - apply (blocked_evaluation_writes_the_response sampleFormat
             (mkParams [quoted "xyz"] [] time.zero time.zero true) "abc"
             time.zero []); reflexivity.
  - apply (blocked_evaluation_writes_the_response sampleFormat
             (mkParams [quoted "xyz"] [] time.zero time.zero false) "abc"
             time.zero []); reflexivity.
  - apply (blocked_evaluation_writes_the_response sampleFormat
             (mkParams [quoted "abc"] [] time.zero time.zero true) "abc"
             time.zero []); reflexivity.
Defined.

(** C10: a zero If-Modified-Since or If-Unmodified-Since is treated as an
    absent header: its block is skipped, leaving the flag and the context
    as they were.  With both lists empty and both times zero the evaluation
    proceeds, whatever the resource.  [HasConditionalParams] is true
    exactly when one of the two lists is not empty or one of the two times
    is not zero. *)
Theorem zero_time_is_an_absent_header
    (fmt : time.Time -> string) (p : Params) (etag : string)
    (modified : time.Time) (failed : bool) (ctx : Context) :
  (time.IsZero (IfModifiedSince p) = true ->
   checkIfModifiedSince fmt p modified failed ctx = (failed, ctx))
  /\ (time.IsZero (IfUnmodifiedSince p) = true ->
      checkIfUnmodifiedSince fmt p modified failed ctx = (failed, ctx))
  /\ (IfMatch p = [] -> IfNoneMatch p = [] ->
      time.IsZero (IfModifiedSince p) = true ->
      time.IsZero (IfUnmodifiedSince p) = true ->
      PreconditionFailed fmt p etag modified ctx = (false, ctx)
      /\ evaluate fmt p etag modified = Proceed)
  /\ (HasConditionalParams p = true <->
      IfMatch p <> [] \/ IfNoneMatch p <> []
      \/ time.IsZero (IfModifiedSince p) = false
      \/ time.IsZero (IfUnmodifiedSince p) = false).
Proof.
  rewrite checkIfModifiedSince_run, checkIfUnmodifiedSince_run,
    PreconditionFailed_run, evaluate_run.
  split; [|split; [|split]].
  - intros Hz. unfold modifiedSinceFails. rewrite Hz. cbn.
    now rewrite orb_false_r, andb_false_r, app_nil_r.
  - intros Hz. unfold unmodifiedSinceFails. rewrite Hz. cbn.
    now rewrite orb_false_r, andb_false_r, app_nil_r.
  - intros Him Hnm Hms Hus.
    assert (Hany : anyFails p etag modified = false).
    { unfold anyFails, noneMatchFails, matchFails, modifiedSinceFails,
        unmodifiedSinceFails.
      now rewrite Him, Hnm, Hms, Hus. }
    rewrite (calls_none_when_no_check_fails fmt p etag modified Hany), Hany.
    now rewrite app_nil_r.
  - unfold HasConditionalParams.
    rewrite !orb_true_iff, !negb_true_iff, !Nat.ltb_lt.
    assert (Hlen : forall l : list string,
              (0 < List.length l)%nat <-> l <> []).
    { intros [|x l]; cbn; split; intros H; try lia; congruence. }
    rewrite !Hlen. tauto.
Qed.

Lemma zero_time_is_an_absent_header_witness :
  PreconditionFailed sampleFormat
    (mkParams [] [] time.zero time.zero true) "abc" (time.mkTime 5 0) []
  = (false, [])
  /\ HasConditionalParams
       (mkParams [] [] (time.mkTime 5 0) time.zero true) = true.
Proof.
  split.
  - apply (zero_time_is_an_absent_header sampleFormat
             (mkParams [] [] time.zero time.zero true) "abc"
             (time.mkTime 5 0) false []); reflexivity.
  - apply (zero_time_is_an_absent_header sampleFormat
             (mkParams [] [] (time.mkTime 5 0) time.zero true) "abc"
             (time.mkTime 5 0) false []).
    right; right; left. reflexivity.
Defined.

(** ** Further properties of package conditional *)

Lemma ifMatchFound_existsb (etag : string) (l : list string) :
  ifMatchFound etag l
  = existsb (fun m => String.eqb (trimETag m) etag) l.
Proof.
  induction l as [|m l IH]; cbn; [reflexivity|].
  now destruct (String.eqb (trimETag m) etag).
Qed.

Lemma existsb_Permutation {A : Type} (f : A -> bool) (l l' : list A) :
  Permutation l l' -> existsb f l = existsb f l'.
Proof.
  induction 1 as [|x l l' _ IH|x y l|l l' l'' _ IH1 _ IH2]; cbn.
  - reflexivity.
  - now rewrite IH.
  - now destruct (f x), (f y).
  - congruence.
Qed.

(** X1: whether the evaluation is blocked does not depend on [isWrite], nor
    on the context: a read and a write with the same headers on the same
    resource are blocked together. *)
Theorem blocked_flag_ignores_isWrite
    (fmt : time.Time -> string) (ifMatch ifNoneMatch : list string)
    (since unsince : time.Time) (w w' : bool) (etag : string)
    (modified : time.Time) (ctx ctx' : Context) :
  fst (PreconditionFailed fmt (mkParams ifMatch ifNoneMatch since unsince w)
         etag modified ctx)
  = fst (PreconditionFailed fmt
           (mkParams ifMatch ifNoneMatch since unsince w') etag modified ctx').
Proof. now rewrite !PreconditionFailed_run. Qed.

(** X2: a request that lists the same values, at least one, in If-Match
    and in If-None-Match is blocked whatever the resource's tag: if some
    value matches, If-None-Match fails, and if none does, If-Match fails. *)
Theorem same_tags_in_both_lists_block
    (fmt : time.Time -> string) (p : Params) (etag : string)
    (modified : time.Time) (ctx : Context) :
  IfMatch p <> [] -> IfNoneMatch p = IfMatch p ->
  fst (PreconditionFailed fmt p etag modified ctx) = true.
Proof.
  intros Hne Heq. rewrite PreconditionFailed_run. cbn [fst].
  unfold anyFails.
  destruct (ifMatchFound etag (IfMatch p)) eqn:E.
  - assert (H : noneMatchFails p etag = true).
    { apply noneMatchFails_iff. rewrite Heq.
      apply ifMatchFound_iff in E. destruct E as [m [Hin Hm]].
      exists m. auto. }
    now rewrite H.
  - assert (H : matchFails p etag = true).
    { unfold matchFails. rewrite E.
      destruct (IfMatch p); [congruence|reflexivity]. }
    rewrite H. now rewrite orb_true_r.
Qed.

Lemma same_tags_in_both_lists_block_witness :
  fst (PreconditionFailed sampleFormat
         (mkParams [quoted "abc"] [quoted "abc"] time.zero time.zero true)
         "xyz" time.zero [])
  = true.
Proof.
  apply (same_tags_in_both_lists_block sampleFormat
           (mkParams [quoted "abc"] [quoted "abc"] time.zero time.zero true)
           "xyz" time.zero []); [discriminate|reflexivity].
Defined.

(** X3: a request that gives the same time, not the zero time, in
    If-Modified-Since and in If-Unmodified-Since is blocked whatever the
    resource's modification time: one of the two checks fails. *)
Theorem same_time_in_both_headers_blocks
    (fmt : time.Time -> string) (p : Params) (etag : string)
    (modified : time.Time) (ctx : Context) :
  time.IsZero (IfModifiedSince p) = false ->
  IfUnmodifiedSince p = IfModifiedSince p ->
  fst (PreconditionFailed fmt p etag modified ctx) = true.
Proof.
  intros Hz Heq. rewrite PreconditionFailed_run. cbn [fst].
  unfold anyFails, modifiedSinceFails, unmodifiedSinceFails.
  rewrite Heq, Hz. cbn [negb andb].
  destruct (time.After modified (IfModifiedSince p)); cbn;
    now rewrite ?orb_true_r.
Qed.

Lemma same_time_in_both_headers_blocks_witness :
  fst (PreconditionFailed sampleFormat
         (mkParams [] [] (time.mkTime 5 0) (time.mkTime 5 0) false)
         "abc" (time.mkTime 9 0) [])
  = true.
Proof.
  apply (same_time_in_both_headers_blocks sampleFormat
           (mkParams [] [] (time.mkTime 5 0) (time.mkTime 5 0) false)
           "abc" (time.mkTime 9 0) []); reflexivity.
Defined.

(** X4: the star is a wildcard in If-None-Match only.  With no other
    header, If-None-Match [*] blocks exactly when a resource exists (its
    tag is not empty); If-Match [*] is compared as a tag like any other,
    and blocks unless the resource's tag is the one character [*]. *)
Theorem star_is_a_wildcard_in_if_none_match_only
    (fmt : time.Time -> string) (p : Params) (etag : string)
    (modified : time.Time) (ctx : Context) :
  IfModifiedSince p = time.zero -> IfUnmodifiedSince p = time.zero ->
  (IfNoneMatch p = ["*"] -> IfMatch p = [] ->
   (fst (PreconditionFailed fmt p etag modified ctx) = true <-> etag <> ""))
  /\ (IfMatch p = ["*"] -> IfNoneMatch p = [] ->
      (fst (PreconditionFailed fmt p etag modified ctx) = true <->
       etag <> "*")).
Proof.
  intros Hms Hus. rewrite PreconditionFailed_run. cbn [fst].
  unfold anyFails, modifiedSinceFails, unmodifiedSinceFails.
  rewrite Hms, Hus. change (time.IsZero time.zero) with true.
  cbn [negb andb]. rewrite !orb_false_r.
  split; intros H1 H2.
  - assert (H : matchFails p etag = false)
      by (unfold matchFails; rewrite H2; reflexivity).
    rewrite H, orb_false_r, noneMatchFails_iff, H1. split.
    + intros [m [[<- | []] [Hm | [_ Hne]]]]; [|exact Hne].
      change (trimETag "*") with "*" in Hm. subst etag. discriminate.
    + intros Hne. exists "*". split; [left; reflexivity|].
      right. split; [reflexivity|exact Hne].
  - assert (H : noneMatchFails p etag = false)
      by (unfold noneMatchFails; rewrite H2; reflexivity).
    rewrite H. cbn [orb]. rewrite matchFails_iff, H1. split.
    + intros [_ H'] ->. apply (H' "*"); [left; reflexivity|reflexivity].
    + intros Hne. split; [discriminate|].
      intros m [<- | []]. change (trimETag "*") with "*". congruence.
Qed.

Lemma star_is_a_wildcard_in_if_none_match_only_witness :
  fst (PreconditionFailed sampleFormat
         (mkParams [] ["*"] time.zero time.zero true) "abc" time.zero [])
  = true
  /\ fst (PreconditionFailed sampleFormat
            (mkParams ["*"] [] time.zero time.zero true) "abc" time.zero [])
     = true.
Proof.
  split.
  - apply (proj1 (star_is_a_wildcard_in_if_none_match_only sampleFormat
                    (mkParams [] ["*"] time.zero time.zero true) "abc"
                    time.zero [] eq_refl eq_refl) eq_refl eq_refl).
    discriminate.
  - apply (proj2 (star_is_a_wildcard_in_if_none_match_only sampleFormat
                    (mkParams ["*"] [] time.zero time.zero true) "abc"
                    time.zero [] eq_refl eq_refl) eq_refl eq_refl).
    discriminate.
Defined.

Lemma append_nil_r (s : string) : s ++ "" = s.
Proof. induction s as [|a s IH]; cbn; [reflexivity|now rewrite IH]. Qed.

Lemma append_assoc (s t u : string) : (s ++ t) ++ u = s ++ t ++ u.
Proof. induction s as [|a s IH]; cbn; [reflexivity|now rewrite IH]. Qed.

Lemma prefix_append (s t : string) : String.prefix s (s ++ t) = true.
Proof.
  induction s as [|a s IH]; cbn; [now destruct t|].
  destruct (ascii_dec a a); [exact IH|congruence].
Qed.

(** X5: every error detail a write adds belongs to one of the four
    headers, whose check has failed: its location is that header's, its
    message starts with the header's name, and its value is a listed
    If-None-Match value that matches (it equals the resource's tag once
    normalized, or is the star while a resource exists), the whole If-Match
    list, or the rendered supplied time.  A read adds none. *)
Theorem write_details_name_their_header
    (fmt : time.Time -> string) (p : Params) (etag : string)
    (modified : time.Time) (e : ErrorDetail) :
  In e (ctx_errors (snd (PreconditionFailed fmt p etag modified []))) ->
  isWrite p = true
  /\ ((Location e = "request.headers.If-None-Match"
       /\ String.prefix "If-None-Match: " (Message e) = true
       /\ exists m,
            In m (IfNoneMatch p)
            /\ (trimETag m = etag \/ (trimETag m = "*" /\ etag <> ""))
            /\ Value e = VString m
            /\ Message e = "If-None-Match: " ++ m
                           ++ " precondition failed, " ++ foundMsgOf etag)
      \/ (Location e = "request.headers.If-Match"
          /\ String.prefix "If-Match " (Message e) = true
          /\ Value e = VStrings (IfMatch p)
          /\ IfMatch p <> []
          /\ (forall m, In m (IfMatch p) -> trimETag m <> etag))
      \/ (Location e = "request.headers.If-Modified-Since"
          /\ String.prefix "If-Modified-Since: " (Message e) = true
          /\ Value e = VString (fmt (IfModifiedSince p))
          /\ time.IsZero (IfModifiedSince p) = false
          /\ time.After modified (IfModifiedSince p) = false)
      \/ (Location e = "request.headers.If-Unmodified-Since"
          /\ String.prefix "If-Unmodified-Since: " (Message e) = true
          /\ Value e = VString (fmt (IfUnmodifiedSince p))
          /\ time.IsZero (IfUnmodifiedSince p) = false
          /\ time.After modified (IfUnmodifiedSince p) = true)).
Proof.
  rewrite PreconditionFailed_run. cbn [snd]. rewrite app_nil_l.
  rewrite ctx_errors_calls.
  destruct (isWrite p); [|intros []].
  intros Hin. split; [reflexivity|].
  unfold writeErrors in Hin. rewrite !in_app_iff in Hin.
  destruct Hin as [Hin | [Hin | [Hin | Hin]]].
  - left. apply in_map_iff in Hin. destruct Hin as [m [<- Hm]].
    apply filter_In in Hm. destruct Hm as [Hm Hhit].
    apply noneMatchHit_iff in Hhit.
    cbn [noneMatchDetail Location Message Value].
    split; [reflexivity|]. split; [apply prefix_append|]. exists m. auto.
  - right; left. destruct (matchFails p etag) eqn:E; [|destruct Hin].
    destruct Hin as [<- | []]. cbn [matchDetail Location Message Value].
    apply matchFails_iff in E. destruct E as [E1 E2].
    repeat split; try apply prefix_append; assumption.
  - right; right; left.
    destruct (modifiedSinceFails p modified) eqn:E; [|destruct Hin].
    destruct Hin as [<- | []].
    cbn [modifiedSinceDetail Location Message Value].
    unfold modifiedSinceFails in E.
    rewrite andb_true_iff, !negb_true_iff in E. destruct E as [E1 E2].
    repeat split; try apply prefix_append; assumption.
  - right; right; right.
    destruct (unmodifiedSinceFails p modified) eqn:E; [|destruct Hin].
    destruct Hin as [<- | []].
    cbn [unmodifiedSinceDetail Location Message Value].
    unfold unmodifiedSinceFails in E.
    rewrite andb_true_iff, negb_true_iff in E. destruct E as [E1 E2].
    repeat split; try apply prefix_append; assumption.
Qed.

Lemma write_details_name_their_header_witness :
  isWrite (mkParams [quoted "xyz"] [] time.zero time.zero true) = true
  /\ (Location (matchDetail
                  (mkParams [quoted "xyz"] [] time.zero time.zero true)
                  "found resource with ETag abc")
      = "request.headers.If-None-Match" -> False).
Proof.
  pose proof (write_details_name_their_header sampleFormat
                (mkParams [quoted "xyz"] [] time.zero time.zero true) "abc"
                time.zero
                (matchDetail
                   (mkParams [quoted "xyz"] [] time.zero time.zero true)
                   "found resource with ETag abc")
                (or_introl eq_refl)) as [H _].
  split; [exact H|discriminate].
Defined.

Lemma filter_length_existsb {A : Type} (f : A -> bool) (l : list A) :
  (List.length (List.filter f l) <= 1)%nat ->
  List.length (List.filter f l) = Nat.b2n (existsb f l).
Proof.
  induction l as [|a l IH]; cbn; [reflexivity|].
  destruct (f a); cbn; intros H; [|now apply IH].
  destruct (List.filter f l) eqn:E; [|cbn in H; lia].
  assert (H0 : existsb f l = false).
  { destruct (existsb f l) eqn:Ex; [|reflexivity].
    apply existsb_exists in Ex. destruct Ex as [x [Hin Hx]].
    assert (Hf : In x (List.filter f l)) by (apply filter_In; auto).
    rewrite E in Hf. destruct Hf. }
  reflexivity.
Qed.

(** X6: the number of error details of a write.  The If-None-Match loop
    adds one for every listed value that matches, and each of the other
    three checks adds one when it fails; so there are at most three more
    than there are If-None-Match values, and, when at most one listed
    If-None-Match value matches, exactly one for each failed check. *)
Theorem write_detail_count
    (fmt : time.Time -> string) (p : Params) (etag : string)
    (modified : time.Time) :
  isWrite p = true ->
  List.length (ctx_errors (snd (PreconditionFailed fmt p etag modified [])))
  = (List.length (List.filter (noneMatchHit etag) (IfNoneMatch p))
     + Nat.b2n (matchFails p etag)
     + Nat.b2n (modifiedSinceFails p modified)
     + Nat.b2n (unmodifiedSinceFails p modified))%nat
  /\ (List.length
        (ctx_errors (snd (PreconditionFailed fmt p etag modified [])))
      <= List.length (IfNoneMatch p) + 3)%nat
  /\ ((List.length (List.filter (noneMatchHit etag) (IfNoneMatch p)) <= 1)%nat
      -> List.length
           (ctx_errors (snd (PreconditionFailed fmt p etag modified [])))
         = (Nat.b2n (noneMatchFails p etag)
            + Nat.b2n (matchFails p etag)
            + Nat.b2n (modifiedSinceFails p modified)
            + Nat.b2n (unmodifiedSinceFails p modified))%nat).
Proof.
  intros Hw. rewrite PreconditionFailed_run. cbn [snd]. rewrite app_nil_l.
  rewrite ctx_errors_calls, Hw. unfold writeErrors.
  rewrite !length_app, length_map.
  assert (Hle : (List.length (List.filter (noneMatchHit etag) (IfNoneMatch p))
                 <= List.length (IfNoneMatch p))%nat)
    by apply filter_length_le.
  assert (E : forall (b : bool) (d : ErrorDetail),
             List.length (if b then [d] else []) = Nat.b2n b)
    by (now intros []).
  rewrite !E.
  split; [lia|]. split.
  - destruct (matchFails p etag), (modifiedSinceFails p modified),
      (unmodifiedSinceFails p modified); cbn; lia.
  - intros H1. unfold noneMatchFails.
    rewrite (filter_length_existsb _ _ H1). lia.
Qed.

Lemma write_detail_count_witness :
  List.length
    (ctx_errors
       (snd (PreconditionFailed sampleFormat
               (mkParams [quoted "xyz"] [quoted "abc"] (time.mkTime 9 0)
                  (time.mkTime 5 0) true)
               "abc" (time.mkTime 7 0) [])))
  = 4%nat.
Proof.
  pose proof (write_detail_count sampleFormat
                (mkParams [quoted "xyz"] [quoted "abc"] (time.mkTime 9 0)
                   (time.mkTime 5 0) true)
                "abc" (time.mkTime 7 0) eq_refl) as (_ & _ & H).
  apply H. cbn. lia.
Defined.

(** X7: whether the evaluation is blocked does not depend on the order of
    the values in If-Match and in If-None-Match. *)
Theorem blocked_flag_ignores_list_order
    (fmt : time.Time -> string) (p p' : Params) (etag : string)
    (modified : time.Time) (ctx ctx' : Context) :
  Permutation (IfMatch p) (IfMatch p') ->
  Permutation (IfNoneMatch p) (IfNoneMatch p') ->
  IfModifiedSince p = IfModifiedSince p' ->
  IfUnmodifiedSince p = IfUnmodifiedSince p' ->
  fst (PreconditionFailed fmt p etag modified ctx)
  = fst (PreconditionFailed fmt p' etag modified ctx').
Proof.
  intros Hm Hn Hs Hu. rewrite !PreconditionFailed_run. cbn [fst].
  unfold anyFails, noneMatchFails, matchFails, modifiedSinceFails,
    unmodifiedSinceFails.
  rewrite !ifMatchFound_existsb, Hs, Hu.
  rewrite (existsb_Permutation _ _ _ Hn), (existsb_Permutation _ _ _ Hm).
  now rewrite (Permutation_length Hm).
Qed.

Lemma blocked_flag_ignores_list_order_witness :
  fst (PreconditionFailed sampleFormat
         (mkParams [quoted "a"; quoted "b"] [] time.zero time.zero true)
         "b" time.zero [])
  = fst (PreconditionFailed sampleFormat
           (mkParams [quoted "b"; quoted "a"] [] time.zero time.zero false)
           "b" time.zero []).
Proof.
  apply (blocked_flag_ignores_list_order sampleFormat
           (mkParams [quoted "a"; quoted "b"] [] time.zero time.zero true)
           (mkParams [quoted "b"; quoted "a"] [] time.zero time.zero false)
           "b" time.zero [] []).
  - apply perm_swap.
  - apply perm_nil.
  - reflexivity.
  - reflexivity.
Defined.

(** X8: [Resolve] never clears the write mark: parameters already marked
    stay as they are whatever the method, so resolving twice with the same
    method equals resolving once, and after two calls the mark is on when
    either call set it. *)
Theorem Resolve_keeps_the_write_mark (p : Params) (m1 m2 : string) :
  (isWrite p = true -> Resolve p m1 = p)
  /\ Resolve (Resolve p m1) m1 = Resolve p m1
  /\ isWrite (Resolve (Resolve p m1) m2)
     = isWrite (Resolve p m1) || isWrite (Resolve p m2).
Proof.
  unfold Resolve.
  destruct p as [im inm ims ius w]. cbn [IfMatch IfNoneMatch IfModifiedSince
    IfUnmodifiedSince isWrite].
  destruct (String.eqb m1 http.MethodPost || String.eqb m1 http.MethodPut
            || String.eqb m1 http.MethodPatch
            || String.eqb m1 http.MethodDelete) eqn:E1;
  destruct (String.eqb m2 http.MethodPost || String.eqb m2 http.MethodPut
            || String.eqb m2 http.MethodPatch
            || String.eqb m2 http.MethodDelete) eqn:E2;
  cbn [IfMatch IfNoneMatch IfModifiedSince IfUnmodifiedSince isWrite];
  rewrite ?E1, ?E2; cbn [isWrite orb];
  repeat split; try (intros ->; reflexivity);
  rewrite ?orb_true_r, ?orb_false_r; try reflexivity;
  now destruct w.
Qed.

Lemma Resolve_keeps_the_write_mark_witness :
  Resolve (mkParams [] [] time.zero time.zero true) "GET"
  = mkParams [] [] time.zero time.zero true.
Proof.
  exact (proj1 (Resolve_keeps_the_write_mark
                  (mkParams [] [] time.zero time.zero true) "GET" "GET")
           eq_refl).
Defined.

(** X9: the weak and the strong form of a tag are normalized alike: for a
    value that is not empty and does not itself start with [W/], putting
    [W/] in front changes neither its normalized form nor whether it
    matches in If-None-Match or in If-Match. *)
Theorem weak_and_strong_forms_normalize_alike (v etag : string) :
  v <> "" -> strings.HasPrefix v "W/" = false ->
  trimETag ("W/" ++ v) = trimETag v
  /\ noneMatchHit etag ("W/" ++ v) = noneMatchHit etag v
  /\ ifMatchFound etag ["W/" ++ v] = ifMatchFound etag [v].
Proof.
  intros Hne Hp.
  assert (E : trimETag ("W/" ++ v) = trimETag v).
  { unfold trimETag at 2. rewrite Hp. cbn [andb].
    destruct v as [|a v]; [congruence|].
    unfold trimETag, strings.HasPrefix, strings.from. cbn.
    now rewrite substring_all. }
  unfold noneMatchHit. cbn [ifMatchFound]. now rewrite E.
Qed.

Lemma weak_and_strong_forms_normalize_alike_witness :
  trimETag ("W/" ++ quoted "abc") = trimETag (quoted "abc").
Proof.
  apply (weak_and_strong_forms_normalize_alike (quoted "abc") "abc");
    [discriminate|reflexivity].
Defined.

Lemma trimLeftByte_split (s : string) (c : ascii) :
  exists q, s = q ++ strings.trimLeftByte s c /\ allByte c q = true.
Proof.
  induction s as [|a s [q [Hq Ha]]]; cbn [strings.trimLeftByte].
  - exists "". auto.
  - destruct (Ascii.eqb a c) eqn:E.
    + exists (String a q). cbn [append allByte]. rewrite E, Ha, <- Hq. auto.
    + exists "". auto.
Qed.

Lemma trimRightByte_split (s : string) (c : ascii) :
  exists q, s = strings.trimRightByte s c ++ q /\ allByte c q = true.
Proof.
  induction s as [|a s [q [Hq Ha]]]; cbn [strings.trimRightByte].
  - exists "". auto.
  - destruct (strings.trimRightByte s c) as [|b r] eqn:Er.
    + cbn [append] in Hq. destruct (Ascii.eqb a c) eqn:E.
      * exists (String a q). cbn [append allByte].
        rewrite E, Ha, <- Hq. auto.
      * exists q. cbn [append]. split; [congruence|exact Ha].
    + exists q. cbn [append]. cbn [append] in Hq.
      split; [congruence|exact Ha].
Qed.

Lemma Trim_split (s : string) (c : ascii) :
  exists q1 q2, s = q1 ++ strings.Trim s c ++ q2
                /\ allByte c q1 = true /\ allByte c q2 = true.
Proof.
  unfold strings.Trim.
  destruct (trimRightByte_split s c) as [q2 [H2 A2]].
  destruct (trimLeftByte_split (strings.trimRightByte s c) c)
    as [q1 [H1 A1]].
  exists q1, q2. repeat split; [|assumption|assumption].
  rewrite <- append_assoc, <- H1. exact H2.
Qed.

Lemma prefix_split (s v : string) :
  String.prefix s v = true -> exists r, v = s ++ r.
Proof.
  revert v. induction s as [|a s IH]; intros v H.
  - exists v. reflexivity.
  - destruct v as [|b v]; [discriminate H|].
    cbn [String.prefix] in H.
    destruct (ascii_dec a b) as [<-|]; [|discriminate H].
    destruct (IH v H) as [r ->]. exists r. reflexivity.
Qed.

(** X10: normalization only removes bytes at the two ends: the normalized
    tag is a contiguous part of the supplied value, followed by quote
    characters only and preceded by quote characters only, after [W/] when
    that prefix was removed.  So it is never longer than the value. *)
Theorem trimETag_keeps_a_part_of_the_value (v : string) :
  exists w q1 q2,
    v = w ++ q1 ++ trimETag v ++ q2
    /\ (w = "" \/ w = "W/")
    /\ allByte dquote q1 = true /\ allByte dquote q2 = true
    /\ (String.length (trimETag v) <= String.length v)%nat.
Proof.
  assert (Hlen : forall a b : string,
            String.length (a ++ b) = (String.length a + String.length b)%nat).
  { induction a as [|x a IH]; intros b; cbn; [reflexivity|now rewrite IH]. }
  unfold trimETag.
  destruct (strings.HasPrefix v "W/" && (2 <? String.length v)%nat) eqn:E.
  - apply andb_true_iff in E. destruct E as [Hp _].
    destruct (prefix_split _ _ Hp) as [r ->]. rename r into v.
    assert (Hf : strings.from 2 ("W/" ++ v) = v).
    { unfold strings.from. cbn. now rewrite Nat.sub_0_r, substring_all. }
    rewrite Hf.
    destruct (Trim_split v dquote) as [q1 [q2 [H [A1 A2]]]].
    pose proof (f_equal String.length H) as Hl. rewrite !Hlen in Hl.
    exists "W/", q1, q2. repeat split; auto.
    + f_equal. exact H.
    + rewrite Hlen. lia.
  - destruct (Trim_split v dquote) as [q1 [q2 [H [A1 A2]]]].
    pose proof (f_equal String.length H) as Hl. rewrite !Hlen in Hl.
    exists "", q1, q2. repeat split; auto. lia.
Qed.

(** ** The route path of the Echo adapter *)

Lemma ReplaceAll_app (s t : string) (old : ascii) (new : string) :
  strings.ReplaceAll (s ++ t) old new
  = strings.ReplaceAll s old new ++ strings.ReplaceAll t old new.
Proof.
  induction s as [|a s IH]; cbn; [reflexivity|].
  destruct (Ascii.eqb a old); rewrite IH; [|reflexivity].
  now rewrite append_assoc.
Qed.

Lemma ReplaceAll_id (s : string) (old : ascii) (new : string) :
  noByte old s = true -> strings.ReplaceAll s old new = s.
Proof.
  induction s as [|a s IH]; cbn; [reflexivity|].
  destruct (Ascii.eqb a old); cbn; [discriminate|].
  intros H. now rewrite IH.
Qed.

Lemma noByte_app (c : ascii) (s t : string) :
  noByte c (s ++ t) = noByte c s && noByte c t.
Proof.
  induction s as [|a s IH]; cbn; [reflexivity|].
  now rewrite IH, andb_assoc.
Qed.

Lemma noByte_ReplaceAll (c old : ascii) (s new : string) :
  noByte c new = true ->
  (c = old \/ noByte c s = true) ->
  noByte c (strings.ReplaceAll s old new) = true.
Proof.
  intros Hn. induction s as [|a s IH]; cbn; [reflexivity|].
  intros H. destruct (Ascii.eqb a old) eqn:E.
  - rewrite noByte_app, Hn. cbn. apply IH.
    destruct H as [H | H]; [now left|right].
    now apply andb_true_iff in H.
  - cbn. destruct H as [-> | H].
    + rewrite E. cbn. apply IH. now left.
    + apply andb_true_iff in H. destruct H as [-> H]. cbn.
      apply IH. now right.
Qed.

(** X11: the path the Echo adapter registers holds no brace, whatever the
    operation's path; and a path that holds no brace is registered as it
    is. *)
Theorem echo_path_has_no_brace (path : string) :
  noByte "{" (humaecho.Handle_path path) = true
  /\ noByte "}" (humaecho.Handle_path path) = true
  /\ (noByte "{" path = true -> noByte "}" path = true ->
      humaecho.Handle_path path = path).
Proof.
  unfold humaecho.Handle_path. split; [|split].
  - apply noByte_ReplaceAll; [reflexivity|right].
    apply noByte_ReplaceAll; [reflexivity|now left].
  - apply noByte_ReplaceAll; [reflexivity|now left].
  - intros H1 H2. rewrite (ReplaceAll_id path "{" ":" H1).
    now apply ReplaceAll_id.
Qed.

Lemma echo_path_has_no_brace_witness :
  humaecho.Handle_path "/users/list" = "/users/list".
Proof.
  apply (echo_path_has_no_brace "/users/list"); reflexivity.
Defined.

(** X12: the Echo adapter converts a path piece by piece, and a parameter
    [{name}], with no brace inside the name, becomes [:name]. *)
Theorem echo_path_converts_each_parameter (before name after : string) :
  noByte "{" name = true -> noByte "}" name = true ->
  humaecho.Handle_path (before ++ "{" ++ name ++ "}" ++ after)
  = humaecho.Handle_path before ++ ":" ++ name
    ++ humaecho.Handle_path after.
Proof.
  intros H1 H2. unfold humaecho.Handle_path.
  rewrite !ReplaceAll_app.
  change (strings.ReplaceAll "{" "{" ":") with ":".
  change (strings.ReplaceAll "}" "{" ":") with "}".
  change (strings.ReplaceAll ":" "}" "") with ":".
  change (strings.ReplaceAll "}" "}" "") with "".
  rewrite (ReplaceAll_id name "{" ":" H1), (ReplaceAll_id name "}" "" H2).
  reflexivity.
Qed.

Lemma echo_path_converts_each_parameter_witness :
  humaecho.Handle_path "/users/{id}/posts"
  = "/users/:id/posts".
Proof.
  exact (echo_path_converts_each_parameter "/users/" "id" "/posts"
           eq_refl eq_refl).
Defined.

(** ** The groups of the chi adapter *)

Lemma chi_run_app (fn1 fn2 : list humachi.Step) (a : humachi.chiAdapter) :
  humachi.run (fn1 ++ fn2) a = humachi.run fn2 (humachi.run fn1 a).
Proof. apply fold_left_app. Qed.

Lemma chi_run_cons (s : humachi.Step) (fn : list humachi.Step)
    (a : humachi.chiAdapter) :
  humachi.run (s :: fn) a = humachi.run fn (humachi.step s a).
Proof. reflexivity. Qed.

Lemma chi_Group_unfold (a : humachi.chiAdapter) (fn : list humachi.Step)
    (mws : list humachi.Middleware) :
  humachi.Group a fn mws
  = match humachi.handlers
            (humachi.run fn
               (humachi.mkchiAdapter (humachi.router a) humachi.collect
                  (humachi.handlers a))) with
    | None =>
        humachi.mkchiAdapter
          (humachi.router
             (humachi.run fn
                (humachi.mkchiAdapter (humachi.router a) humachi.collect
                   (humachi.handlers a))))
          humachi.defaultHandler None
    | Some hs =>
        humachi.mkchiAdapter
          (humachi.router
             (humachi.run fn
                (humachi.mkchiAdapter (humachi.router a) humachi.collect
                   (humachi.handlers a)))
           ++ [humachi.RouterGroup mws (humachi.registrations hs)])%list
          humachi.defaultHandler (Some [])
    end.
Proof. reflexivity. Qed.

(** Registrations made while the route collects go to [handlers]. *)
Lemma chi_run_registering_collect (l : list humachi.params)
    (r : list humachi.RouterCall) (hs : option (list humachi.params)) :
  humachi.run (humachi.registering l)
    (humachi.mkchiAdapter r humachi.collect hs)
  = humachi.mkchiAdapter r humachi.collect
      (match l with
       | [] => hs
       | _ => Some (match hs with None => [] | Some h => h end ++ l)%list
       end).
Proof.
  revert hs. induction l as [|x l IH]; intros hs; [reflexivity|].
  unfold humachi.registering. cbn [List.map]. rewrite chi_run_cons.
  fold (humachi.registering l). cbn [humachi.step].
  unfold humachi.Handle. cbn [humachi.route humachi.router humachi.handlers].
  rewrite IH. f_equal. destruct x as [o h].
  destruct l as [|y l]; [reflexivity|].
  now rewrite <- app_assoc.
Qed.

(** Registrations made with the default route go to the router. *)
Lemma chi_run_registering_default (l : list humachi.params)
    (r : list humachi.RouterCall) (hs : option (list humachi.params)) :
  humachi.run (humachi.registering l)
    (humachi.mkchiAdapter r humachi.defaultHandler hs)
  = humachi.mkchiAdapter (r ++ humachi.direct l)%list
      humachi.defaultHandler hs.
Proof.
  revert r. induction l as [|x l IH]; intros r.
  - cbn. now rewrite app_nil_r.
  - unfold humachi.registering. cbn [List.map]. rewrite chi_run_cons.
    fold (humachi.registering l). cbn [humachi.step].
    unfold humachi.Handle.
    cbn [humachi.route humachi.router humachi.handlers].
    rewrite IH. unfold humachi.direct. cbn [List.map].
    now rewrite <- app_assoc.
Qed.

(** X13: [Group] with a function that registers operations, on an adapter
    whose [handlers] is nil or empty: the operations are not registered on
    the router one by one but in one router group, after the group's
    middlewares and in the order of registration; the adapter is left with
    the default route and an empty [handlers].  When the function registers
    nothing, a nil [handlers] makes [Group] return without calling the
    router, and an empty one makes it register a group with the middlewares
    and no operation. *)
Theorem chi_Group_registers_in_one_router_group
    (a : humachi.chiAdapter) (l : list humachi.params)
    (mws : list humachi.Middleware) :
  humachi.handlers a = None \/ humachi.handlers a = Some [] ->
  (l <> [] ->
   humachi.Group a (humachi.registering l) mws
   = humachi.mkchiAdapter
       (humachi.router a
        ++ [humachi.RouterGroup mws (humachi.registrations l)])%list
       humachi.defaultHandler (Some []))
  /\ (humachi.handlers a = None ->
      humachi.Group a (humachi.registering []) mws
      = humachi.mkchiAdapter (humachi.router a) humachi.defaultHandler None)
  /\ (humachi.handlers a = Some [] ->
      humachi.Group a (humachi.registering []) mws
      = humachi.mkchiAdapter
          (humachi.router a ++ [humachi.RouterGroup mws []])%list
          humachi.defaultHandler (Some [])).
Proof.
  intros Hh. rewrite !chi_Group_unfold, !chi_run_registering_collect.
  cbn [humachi.handlers humachi.router].
  split; [|split].
  - intros Hl. destruct l as [|x l]; [congruence|].
    destruct Hh as [-> | ->]; reflexivity.
  - intros ->. reflexivity.
  - intros ->. reflexivity.
Qed.

Lemma chi_Group_registers_in_one_router_group_witness :
  humachi.Group (humachi.NewAdapter [])
    (humachi.registering
       [humachi.mkparams (humachi.mkOperation "GET" "/a") 1;
        humachi.mkparams (humachi.mkOperation "PUT" "/b") 2])
    [7]
  = humachi.mkchiAdapter
      [humachi.RouterGroup [7] [("GET", "/a", 1); ("PUT", "/b", 2)]]
      humachi.defaultHandler (Some []).
Proof.
  apply (chi_Group_registers_in_one_router_group (humachi.NewAdapter [])
           [humachi.mkparams (humachi.mkOperation "GET" "/a") 1;
            humachi.mkparams (humachi.mkOperation "PUT" "/b") 2] [7]).
  - left. reflexivity.
  - discriminate.
Defined.

(** X14: groups follow one another without mixing: on a new adapter, after
    a [Group] that registered operations, a second [Group] registers its
    own operations only, in a router group of its own with its own
    middlewares, and a [Handle] outside any group registers on the router
    directly. *)
Theorem chi_Groups_do_not_mix
    (r : list humachi.RouterCall) (l1 l2 : list humachi.params)
    (mws1 mws2 : list humachi.Middleware) (o : humachi.Operation)
    (h : humachi.Handler) :
  l1 <> [] ->
  humachi.Group
    (humachi.Group (humachi.NewAdapter r) (humachi.registering l1) mws1)
    (humachi.registering l2) mws2
  = humachi.mkchiAdapter
      (r ++ [humachi.RouterGroup mws1 (humachi.registrations l1);
             humachi.RouterGroup mws2 (humachi.registrations l2)])%list
      humachi.defaultHandler (Some [])
  /\ humachi.Handle
       (humachi.Group (humachi.NewAdapter r) (humachi.registering l1) mws1)
       o h
     = humachi.mkchiAdapter
         (r ++ [humachi.RouterGroup mws1 (humachi.registrations l1);
                humachi.MethodFunc (humachi.Method o) (humachi.Path o) h])%list
         humachi.defaultHandler (Some []).
Proof.
  intros Hl.
  assert (E : humachi.Group (humachi.NewAdapter r) (humachi.registering l1)
                mws1
              = humachi.mkchiAdapter
                  (r ++ [humachi.RouterGroup mws1 (humachi.registrations l1)])
                  humachi.defaultHandler (Some [])).
  { rewrite chi_Group_unfold, chi_run_registering_collect.
    destruct l1; [congruence|reflexivity]. }
  rewrite E. split.
  - rewrite chi_Group_unfold, chi_run_registering_collect.
    cbn [humachi.handlers humachi.router].
    destruct l2; cbn [app]; rewrite <- app_assoc; reflexivity.
  - unfold humachi.Handle. cbn [humachi.route humachi.router
      humachi.handlers]. now rewrite <- app_assoc.
Qed.

Lemma chi_Groups_do_not_mix_witness :
  humachi.router
    (humachi.Group
       (humachi.Group (humachi.NewAdapter [])
          (humachi.registering
             [humachi.mkparams (humachi.mkOperation "GET" "/a") 1]) [7])
       (humachi.registering
          [humachi.mkparams (humachi.mkOperation "PUT" "/b") 2]) [8])
  = [humachi.RouterGroup [7] [("GET", "/a", 1)];
     humachi.RouterGroup [8] [("PUT", "/b", 2)]].
Proof.
  pose proof (chi_Groups_do_not_mix []
                [humachi.mkparams (humachi.mkOperation "GET" "/a") 1]
                [humachi.mkparams (humachi.mkOperation "PUT" "/b") 2]
                [7] [8] (humachi.mkOperation "GET" "/c") 3) as H.
  destruct H as [H _]; [discriminate|].
  now rewrite H.
Defined.

(** X15: [Group] is not made to be nested.  When the function of a group
    registers [before], then calls [Group] itself with a function that
    registers [inner], then registers [after], the inner call registers
    [before] and [inner] together in its own router group, under the inner
    middlewares only, and sets the route back to the default; so [after] is
    registered on the router directly, under no middleware, and the outer
    call registers a router group with its middlewares and no operation. *)
Theorem chi_nested_Group_takes_over
    (a : humachi.chiAdapter) (before inner after : list humachi.params)
    (outer_mws inner_mws : list humachi.Middleware) :
  humachi.handlers a = None \/ humachi.handlers a = Some [] ->
  (before ++ inner)%list <> [] ->
  humachi.Group a
    (humachi.registering before
     ++ humachi.DoGroup (humachi.registering inner) inner_mws
        :: humachi.registering after)%list
    outer_mws
  = humachi.mkchiAdapter
      (humachi.router a
       ++ humachi.RouterGroup inner_mws
            (humachi.registrations (before ++ inner))
          :: humachi.direct after
       ++ [humachi.RouterGroup outer_mws []])%list
      humachi.defaultHandler (Some []).
Proof.
  intros Hh Hne.
  rewrite chi_Group_unfold, chi_run_app, chi_run_registering_collect,
    chi_run_cons.
  change (humachi.step (humachi.DoGroup (humachi.registering inner)
                          inner_mws))
    with (fun x => humachi.Group x (humachi.registering inner) inner_mws).
  cbv beta. rewrite chi_Group_unfold.
  cbn [humachi.handlers humachi.router].
  rewrite chi_run_registering_collect. cbn [humachi.handlers humachi.router].
  assert (E : match inner with
              | [] =>
                  match before with
                  | [] => humachi.handlers a
                  | _ :: _ =>
                      Some (match humachi.handlers a with
                            | Some h => h
                            | None => []
                            end ++ before)%list
                  end
              | _ :: _ =>
                  Some (match
                          match before with
                          | [] => humachi.handlers a
                          | _ :: _ =>
                              Some (match humachi.handlers a with
                                    | Some h => h
                                    | None => []
                                    end ++ before)%list
                          end
                        with
                        | Some h => h
                        | None => []
                        end ++ inner)%list
              end = Some (before ++ inner)%list).
  { destruct Hh as [-> | ->], before, inner; cbn; try congruence;
      now rewrite ?app_nil_r. }
  rewrite E. rewrite chi_run_registering_default.
  cbn [humachi.handlers humachi.router].
  now rewrite <- !app_assoc.
Qed.

Lemma chi_nested_Group_takes_over_witness :
  humachi.router
    (humachi.Group (humachi.NewAdapter [])
       [humachi.DoHandle (humachi.mkOperation "GET" "/a") 1;
        humachi.DoGroup
          [humachi.DoHandle (humachi.mkOperation "GET" "/b") 2] [8];
        humachi.DoHandle (humachi.mkOperation "GET" "/c") 3]
       [7])
  = [humachi.RouterGroup [8] [("GET", "/a", 1); ("GET", "/b", 2)];
     humachi.MethodFunc "GET" "/c" 3;
     humachi.RouterGroup [7] []].
Proof.
  pose proof (chi_nested_Group_takes_over (humachi.NewAdapter [])
                [humachi.mkparams (humachi.mkOperation "GET" "/a") 1]
                [humachi.mkparams (humachi.mkOperation "GET" "/b") 2]
                [humachi.mkparams (humachi.mkOperation "GET" "/c") 3]
                [7] [8] (or_introl eq_refl)) as H.
  cbn [app] in H. specialize (H ltac:(discriminate)).
  exact (f_equal humachi.router H).
Defined.

(** ** The header arguments of [Do] *)

Lemma Split_not_nil (s : string) (c : ascii) : strings.Split s c <> [].
Proof.
  destruct s as [|a s]; cbn; [discriminate|].
  destruct (Ascii.eqb a c); [discriminate|].
  destruct (strings.Split s c); discriminate.
Qed.

Lemma Split_noByte (s : string) (c : ascii) :
  noByte c s = true -> strings.Split s c = [s].
Proof.
  induction s as [|a s IH]; cbn; [reflexivity|].
  destruct (Ascii.eqb a c); cbn; [discriminate|].
  intros H. now rewrite (IH H).
Qed.

Lemma Split_app (name rest : string) (c : ascii) :
  noByte c name = true ->
  strings.Split (name ++ String c rest) c = name :: strings.Split rest c.
Proof.
  induction name as [|a name IH]; cbn.
  - now rewrite Ascii.eqb_refl.
  - destruct (Ascii.eqb a c); cbn; [discriminate|].
    intros H. now rewrite (IH H).
Qed.

Lemma Join_Split (s : string) (c : ascii) :
  strings.Join (strings.Split s c) (String c EmptyString) = s.
Proof.
  induction s as [|a s IH]; [reflexivity|].
  cbn [strings.Split]. pose proof (Split_not_nil s c) as Hne.
  destruct (Ascii.eqb a c) eqn:E.
  - apply Ascii.eqb_eq in E. subst a.
    destruct (strings.Split s c) as [|p ps]; [congruence|].
    rewrite <- IH. reflexivity.
  - destruct (strings.Split s c) as [|p ps]; [congruence|].
    rewrite <- IH. destruct ps; reflexivity.
Qed.

(** X16: a header argument [name:rest] of [Do], with no colon in the name
    and a name that is not [host] in lower case, sets the header [name] to
    the whole of [rest] with the space around it trimmed: the colons in the
    value are kept.  The host and the body of the request are left as they
    were. *)
Theorem Do_header_keeps_the_colons_of_the_value
    (TrimSpace ToLower Canonical : string -> string)
    (name rest : string) (req : humatest.Request) :
  noByte ":" name = true -> ToLower name <> "host" ->
  humatest.Do_header TrimSpace ToLower Canonical (name ++ ":" ++ rest) req
  = Some (humatest.mkRequest
            (humatest.Header_Set Canonical (humatest.Header req) name
               (TrimSpace rest))
            (humatest.Host req) (humatest.Body req)).
Proof.
  intros Hn Hh. unfold humatest.Do_header.
  change (name ++ ":" ++ rest) with (name ++ String ":" rest).
  rewrite (Split_app name rest ":" Hn). cbn [hd tl].
  apply String.eqb_neq in Hh. rewrite Hh.
  now rewrite (Join_Split rest ":").
Qed.

Lemma Do_header_keeps_the_colons_of_the_value_witness :
  humatest.Header_Get sampleCanonicalKey
    (match humatest.Do_header sampleTrimSpace sampleToLower
             sampleCanonicalKey "Link: http://a/b"
             (humatest.mkRequest (fun _ => None) "" None) with
     | Some req => humatest.Header req
     | None => fun _ => None
     end) "Link"
  = Some "http://a/b".
Proof.
  pose proof (Do_header_keeps_the_colons_of_the_value sampleTrimSpace
                sampleToLower sampleCanonicalKey "Link" " http://a/b"
                (humatest.mkRequest (fun _ => None) "" None) eq_refl) as H.
  change ("Link" ++ ":" ++ " http://a/b") with "Link: http://a/b" in H.
  rewrite H; [reflexivity|discriminate].
Defined.

(** X17: a [Host] argument of [Do] (a name that is [host] in lower case,
    with no colon in it) sets the request's host to the text between the
    first and the second colon only, trimmed: of [Host: example.com:8080]
    the port is left out of the request's host, while the header holds the
    whole value. *)
Theorem Do_header_host_stops_at_the_second_colon
    (TrimSpace ToLower Canonical : string -> string)
    (name host port : string) (req : humatest.Request) :
  noByte ":" name = true -> noByte ":" host = true ->
  ToLower name = "host" ->
  humatest.Do_header TrimSpace ToLower Canonical
    (name ++ ":" ++ host ++ ":" ++ port) req
  = Some (humatest.mkRequest
            (humatest.Header_Set Canonical (humatest.Header req) name
               (TrimSpace (host ++ ":" ++ port)))
            (TrimSpace host) (humatest.Body req))
  /\ humatest.Do_header TrimSpace ToLower Canonical (name ++ ":" ++ host) req
     = Some (humatest.mkRequest
               (humatest.Header_Set Canonical (humatest.Header req) name
                  (TrimSpace host))
               (TrimSpace host) (humatest.Body req)).
Proof.
  intros Hn Hh Hl. unfold humatest.Do_header.
  change (name ++ ":" ++ host ++ ":" ++ port)
    with (name ++ String ":" (host ++ String ":" port)).
  change (name ++ ":" ++ host) with (name ++ String ":" host).
  rewrite !(Split_app name _ ":" Hn). cbn [hd tl nth_error].
  rewrite Hl. cbn [String.eqb Ascii.eqb Bool.eqb].
  rewrite !(Join_Split _ ":").
  rewrite (Split_app host port ":" Hh), (Split_noByte host ":" Hh).
  split; reflexivity.
Qed.

Lemma Do_header_host_stops_at_the_second_colon_witness :
  match humatest.Do_header sampleTrimSpace sampleToLower sampleCanonicalKey
          "host: example.com:8080"
          (humatest.mkRequest (fun _ => None) "" None) with
  | Some req => humatest.Host req
  | None => ""
  end = "example.com".
Proof.
  pose proof (proj1 (Do_header_host_stops_at_the_second_colon
                       sampleTrimSpace sampleToLower sampleCanonicalKey
                       "host" " example.com" "8080"
                       (humatest.mkRequest (fun _ => None) "" None)
                       eq_refl eq_refl eq_refl)) as H.
  change ("host" ++ ":" ++ " example.com" ++ ":" ++ "8080")
    with "host: example.com:8080" in H.
  rewrite H. reflexivity.
Defined.

(** X18: a string argument of [Do] with no colon sets the header of that
    name to the trimmed empty string; when the argument is [host] in lower
    case, [Do] panics, as there is no second part to take the host from. *)
Theorem Do_header_without_colon
    (TrimSpace ToLower Canonical : string -> string)
    (s : string) (req : humatest.Request) :
  noByte ":" s = true ->
  (ToLower s = "host" ->
   humatest.Do_header TrimSpace ToLower Canonical s req = None)
  /\ (ToLower s <> "host" ->
      humatest.Do_header TrimSpace ToLower Canonical s req
      = Some (humatest.mkRequest
                (humatest.Header_Set Canonical (humatest.Header req) s
                   (TrimSpace ""))
                (humatest.Host req) (humatest.Body req))).
Proof.
  intros Hn. unfold humatest.Do_header.
  rewrite (Split_noByte s ":" Hn). cbn [hd tl nth_error strings.Join].
  split; intros H.
  - rewrite H. reflexivity.
  - apply String.eqb_neq in H. now rewrite H.
Qed.

Lemma Do_header_without_colon_witness :
  humatest.Do_header sampleTrimSpace sampleToLower sampleCanonicalKey "host"
    (humatest.mkRequest (fun _ => None) "" None)
  = None
  /\ humatest.Do_header sampleTrimSpace sampleToLower sampleCanonicalKey
       "Accept" (humatest.mkRequest (fun _ => None) "" None)
     <> None.
Proof.
  split.
  - apply (Do_header_without_colon sampleTrimSpace sampleToLower
             sampleCanonicalKey "host"
             (humatest.mkRequest (fun _ => None) "" None) eq_refl).
    reflexivity.
  - rewrite (proj2 (Do_header_without_colon sampleTrimSpace sampleToLower
                      sampleCanonicalKey "Accept"
                      (humatest.mkRequest (fun _ => None) "" None) eq_refl)).
    + discriminate.
    + discriminate.
Defined.

(** X19: the first loop of [Do] ends at the first reader among the
    arguments: that reader is the body, whatever bodies were encoded from
    the arguments before it; the arguments after it are not looked at, so an
    argument of an unsupported type there does not panic; and the flag
    [isJSON] is the one reached before the reader, so an encoded argument
    before the reader still marks the request as JSON. *)
Theorem Do_body_stops_at_the_first_reader
    (before after : list humatest.Arg) (reader : humatest.ReadCloser)
    (b : option humatest.ReadCloser) (isJSON : bool) :
  (forall x r, In x before -> x <> humatest.IsReader r) ->
  humatest.Do_body (before ++ humatest.IsReader reader :: after) b isJSON
  = match humatest.Do_body before b isJSON with
    | Some (_, isJSON') => Some (Some reader, isJSON')
    | None => None
    end.
Proof.
  revert b isJSON.
  induction before as [|x before IH]; intros b isJSON Hno; [reflexivity|].
  assert (Hrest : forall y r, In y before -> y <> humatest.IsReader r)
    by (intros y r Hy; apply Hno; now right).
  cbn [app humatest.Do_body].
  destruct x as [r | s | [e|] | ].
  - exfalso. apply (Hno (humatest.IsReader r) r); [now left|reflexivity].
  - now apply IH.
  - now apply IH.
  - reflexivity.
  - reflexivity.
Qed.

Lemma Do_body_stops_at_the_first_reader_witness :
  humatest.Do_body
    [humatest.IsEncodable (Some "{}"); humatest.IsReader (humatest.NewReader "x");
     humatest.IsOther] None false
  = Some (Some (humatest.NewReader "x"), true).
Proof.
  apply (Do_body_stops_at_the_first_reader
           [humatest.IsEncodable (Some "{}")] [humatest.IsOther]
           (humatest.NewReader "x") None false).
  intros x r [<- | []]. discriminate.
Defined.

Lemma Do_headers_app
    (TrimSpace ToLower Canonical : string -> string)
    (args1 args2 : list humatest.Arg) (req : humatest.Request) :
  humatest.Do_headers TrimSpace ToLower Canonical (args1 ++ args2) req
  = match humatest.Do_headers TrimSpace ToLower Canonical args1 req with
    | Some req' =>
        humatest.Do_headers TrimSpace ToLower Canonical args2 req'
    | None => None
    end.
Proof.
  revert req. induction args1 as [|x args1 IH]; intros req; [reflexivity|].
  cbn [app humatest.Do_headers].
  destruct x as [r | s | e | ]; try apply IH.
  destruct (humatest.Do_header TrimSpace ToLower Canonical s req);
    [apply IH|reflexivity].
Qed.

(** X20: the header arguments of [Do] are applied in order, after the
    automatic [Content-Type: application/json] of an encoded body; so when
    [Do] builds its request, the last argument, a header [name:value] with
    no colon in the name, decides that header: it holds the trimmed value,
    whatever was set for it before. *)
Theorem Do_request_last_header_argument_wins
    (TrimSpace ToLower Canonical : string -> string)
    (args : list humatest.Arg) (name value : string)
    (urlHost : option string) (req : humatest.Request) :
  noByte ":" name = true ->
  humatest.Do_request TrimSpace ToLower Canonical
    (args ++ [humatest.IsString (name ++ ":" ++ value)]) urlHost
  = Some req ->
  humatest.Header_Get Canonical (humatest.Header req) name
  = Some (TrimSpace value).
Proof.
  intros Hn. unfold humatest.Do_request.
  destruct (humatest.Do_body _ None false) as [[b isJSON]|];
    [|discriminate].
  destruct urlHost as [host|]; [|discriminate].
  rewrite Do_headers_app.
  destruct (humatest.Do_headers TrimSpace ToLower Canonical args _)
    as [req'|]; [|discriminate].
  cbn [humatest.Do_headers]. unfold humatest.Do_header.
  change (name ++ ":" ++ value) with (name ++ String ":" value).
  rewrite (Split_app name value ":" Hn). cbn [hd tl nth_error].
  rewrite (Join_Split value ":").
  pose proof (Split_not_nil value ":") as Hne.
  destruct (String.eqb (ToLower name) "host").
  - destruct (strings.Split value ":") as [|part parts]; [congruence|].
    intros [= <-]. unfold humatest.Header_Get, humatest.Header_Set.
    cbn [humatest.Header]. now rewrite String.eqb_refl.
  - intros [= <-]. unfold humatest.Header_Get, humatest.Header_Set.
    cbn [humatest.Header]. now rewrite String.eqb_refl.
Qed.

Lemma Do_request_last_header_argument_wins_witness :
  match humatest.Do_request sampleTrimSpace sampleToLower sampleCanonicalKey
          [humatest.IsEncodable (Some "{}");
           humatest.IsString "Content-Type: text/plain"] (Some "") with
  | Some req =>
      humatest.Header_Get sampleCanonicalKey (humatest.Header req)
        "Content-Type"
  | None => None
  end = Some "text/plain".
Proof.
  destruct (humatest.Do_request sampleTrimSpace sampleToLower
              sampleCanonicalKey
              [humatest.IsEncodable (Some "{}");
               humatest.IsString "Content-Type: text/plain"] (Some ""))
    as [req|] eqn:E; [|discriminate E].
  exact (Do_request_last_header_argument_wins sampleTrimSpace sampleToLower
           sampleCanonicalKey [humatest.IsEncodable (Some "{}")]
           "Content-Type" " text/plain" (Some "") req eq_refl E).
Defined.

(** ** The dumps *)

(** X21: [DumpRequest] leaves the body readable.  Reading the body to dump
    it consumes it, and [dumpBody] puts a new reader of the bytes read in
    its place: when reading meets no error, the request's body after the
    call is as the body was before it, and read to the end gives the same
    bytes, whether or not the head could be dumped; so a second call
    returns what the first returned. *)
Theorem DumpRequest_leaves_the_body_readable
    (Indent : string -> option string) (head : string + string)
    (body : humatest.ReadCloser) :
  humatest.failure body = None ->
  snd (humatest.DumpRequest Indent head (Some body)) = Some body
  /\ humatest.DumpRequest Indent head
       (snd (humatest.DumpRequest Indent head (Some body)))
     = humatest.DumpRequest Indent head (Some body)
  /\ option_map humatest.ReadAll
       (snd (humatest.DumpRequest Indent head (Some body)))
     = Some (humatest.content body, None).
Proof.
  intros Hf.
  assert (E : snd (humatest.DumpRequest Indent head (Some body))
              = Some body).
  { destruct body as [c f]. cbn in Hf. subst f.
    destruct head as [b|err]; [|reflexivity].
    unfold humatest.DumpRequest, humatest.dumpBody, humatest.ReadAll.
    cbn [humatest.content humatest.failure]. reflexivity. }
  rewrite E. split; [reflexivity|]. split; [reflexivity|].
  cbn [option_map]. unfold humatest.ReadAll. now rewrite Hf.
Qed.

Lemma DumpRequest_leaves_the_body_readable_witness :
  snd (humatest.DumpRequest (fun _ => None) (inl "GET / HTTP/1.1")
         (Some (humatest.NewReader "hello")))
  = Some (humatest.NewReader "hello").
Proof.
  apply (DumpRequest_leaves_the_body_readable (fun _ => None)
           (inl "GET / HTTP/1.1") (humatest.NewReader "hello")).
  reflexivity.
Defined.

(** X22: when reading the body fails, [DumpRequest] returns the dumped
    head alone with the read error, and replaces the request's body by one
    whose every read fails with that error: the bytes read before the
    error are lost. *)
Theorem DumpRequest_read_error_replaces_the_body
    (Indent : string -> option string) (head : string)
    (body : humatest.ReadCloser) (err : string) :
  humatest.failure body = Some err ->
  humatest.DumpRequest Indent (inl head) (Some body)
  = ((head, Some err), Some (humatest.ErrReader err))
  /\ humatest.ReadAll (humatest.ErrReader err) = (EmptyString, Some err).
Proof.
  intros Hf. split; [|reflexivity].
  unfold humatest.DumpRequest, humatest.dumpBody, humatest.ReadAll.
  now rewrite Hf.
Qed.

Lemma DumpRequest_read_error_replaces_the_body_witness :
  humatest.DumpRequest (fun _ => None) (inl "GET / HTTP/1.1")
    (Some (humatest.mkReadCloser "par" (Some "broken pipe")))
  = (("GET / HTTP/1.1", Some "broken pipe"),
     Some (humatest.ErrReader "broken pipe")).
Proof.
  apply (DumpRequest_read_error_replaces_the_body (fun _ => None)
           "GET / HTTP/1.1"
           (humatest.mkReadCloser "par" (Some "broken pipe")) "broken pipe").
  reflexivity.
Defined.
